(** * The hyperkit machine driver of minikube

    A shallow embedding of [pkg/minikube/drivers/hyperkit/driver.go].

    The driver is a thin sequencing layer over collaborators it does not
    own: the file system, the process table, the hyperkit launcher, the
    lease table.  Every call to such a collaborator is an event; a run of
    a driver method is a function from the history of events so far to
    its result and the extended history.  The answers of the collaborators
    are given by a [Host], which may depend on the whole history.

    [Create] and [extractKernel] prepare the machine directory before
    [Start]; their collaborators are recorded in a journal that [Start]
    continues. *)

From Stdlib Require Import String Ascii List ZArith Bool Arith Lia.
Import ListNotations.
Local Open Scope string_scope.
Local Open Scope list_scope.
Local Open Scope Z_scope.

Set Implicit Arguments.

(** ** Values of the Go program *)

(** Go's [error] values, as far as the driver builds or inspects them. *)
Inductive error : Type :=
| Errno (errno : Z)                          (* syscall.Errno *)
| errorString (s : string)                   (* errors.New *)
| PathError (op path : string) (err : error) (* os.PathError *)
| RetriableError (Err : error)               (* commonutil.RetriableError *)
| Errorf (format : string) (arg : error).    (* fmt.Errorf with one %v *)

Definition EPERM : Z := 1.
Definition ENOENT : Z := 2.
Definition ESRCH : Z := 3.

(** [os.ErrNotExist] *)
Definition ErrNotExist : error := errorString "file does not exist".

Definition error_is_ENOENT_or_ErrNotExist (e : error) : bool :=
  match e with
  | Errno n => n =? ENOENT
  | errorString s => String.eqb s "file does not exist"
  | _ => false
  end.

(** [os.IsNotExist]: looks through one [os.PathError]. *)
Definition os_IsNotExist (err : option error) : bool :=
  match err with
  | None => false
  | Some (PathError _ _ e) => error_is_ENOENT_or_ErrNotExist e
  | Some e => error_is_ENOENT_or_ErrNotExist e
  end.

(** [syscall.Signal] is an [int]. *)
Definition Signal := Z.
Definition SIGKILL : Signal := 9.
Definition SIGTERM : Signal := 15.

(** [time.Duration] counts nanoseconds. *)
Definition Duration := Z.
Definition Second : Duration := 1000000000.

(** libmachine's [state.State]. *)
Module state.
Inductive State : Set :=
| None | Running | Paused | Saved | Stopped | Stopping | Starting
| Error | Timeout.

Definition eqb (a b : State) : bool :=
  match a, b with
  | None, None | Running, Running | Paused, Paused | Saved, Saved
  | Stopped, Stopped | Stopping, Stopping | Starting, Starting
  | Error, Error | Timeout, Timeout => true
  | _, _ => false
  end.

End state.

(** Go's [os.Process]; a handle returned without an error is never nil. *)
Record Process : Set := { Pid : Z }.

(** [mcnflag.Flag]: a named option of a driver. *)
Record Flag : Set := { FlagName : string; FlagUsage : string }.

(** [hyperkit.DiskConfig] and the fields of [hyperkit.HyperKit] that the
    driver sets. *)
Record DiskConfig : Set :=
  { DiskPath : string; DiskConfigSize : Z; DiskDriver : string }.

Inductive Console : Set := ConsoleStdio | ConsoleFile.

Record HyperKit : Set :=
  { StateDir : string;
    Kernel : string;
    Initrd : string;
    VMNet : bool;
    ISOImage : string;
    HConsole : Console;
    CPUs : Z;
    HMemory : Z;
    UUID : string;
    Disks : list DiskConfig }.

(** The fields of libmachine's [drivers.BaseDriver] that driver.go and
    the accessors it calls read or write, and the [Driver] that embeds it.
    The receiver is a pointer in Go: a method that assigns a field returns
    the updated record here. *)
Record BaseDriver : Set :=
  { IPAddress : string;
    MachineName : string;
    SSHUser : string;
    SSHKeyPath : string;
    StorePath : string }.

Record Driver : Set :=
  { Base : BaseDriver;
    Boot2DockerURL : string;
    DiskSize : Z;
    CPU : Z;
    Memory : Z;
    Cmdline : string }.

Definition set_IPAddress (ip : string) (d : Driver) : Driver :=
  {| Base := {| IPAddress := ip;
                MachineName := MachineName (Base d);
                SSHUser := SSHUser (Base d);
                SSHKeyPath := SSHKeyPath (Base d);
                StorePath := StorePath (Base d) |};
     Boot2DockerURL := Boot2DockerURL d;
     DiskSize := DiskSize d;
     CPU := CPU d;
     Memory := Memory d;
     Cmdline := Cmdline d |}.

Definition set_SSHKeyPath (path : string) (d : Driver) : Driver :=
  {| Base := {| IPAddress := IPAddress (Base d);
                MachineName := MachineName (Base d);
                SSHUser := SSHUser (Base d);
                SSHKeyPath := path;
                StorePath := StorePath (Base d) |};
     Boot2DockerURL := Boot2DockerURL d;
     DiskSize := DiskSize d;
     CPU := CPU d;
     Memory := Memory d;
     Cmdline := Cmdline d |}.

Definition isoFilename : string := "boot2docker.iso".
Definition pidFileName : string := "hyperkit.pid".
Definition machineFileName : string := "hyperkit.json".

(** ** Calls to collaborators *)

(** An argument of a log format. *)
Inductive fmtarg : Type :=
| FStr (s : string)
| FErr (e : option error).

(** The calls the driver makes, indexed by the type of their answer. *)
Inductive call : Type -> Type :=
| os_Open (name : string) : call (option error)
| json_Decode (name : string) : call (Z + error)
| os_FindProcess (pid : Z) : call (Process + error)
| Process_Signal (p : Process) (sig : Signal) : call (option error)
| os_Stat (name : string) : call (option error)
| createDiskImage (sshKeyPath diskPath : string) (diskSize : Z)
    : call (option error)
| fixPermissions (path : string) : call (option error)
| hyperkit_New (hyperkit vpnkitsock statedir : string)
    : call (HyperKit * option error)
| uuid_NewUUID : call string
| HyperKit_Start (h : HyperKit) (cmdline : string) : call (option error)
| GetIPAddressByMACAddress (mac : string) : call (string * option error)
| time_Sleep (d : Duration) : call unit
| log_Infof (format : string) (args : list fmtarg) : call unit
| log_Warnf (format : string) (args : list fmtarg) : call unit.

Record event : Type :=
  Ev { ev_type : Type; ev_call : call ev_type; ev_answer : ev_type }.

Definition history := list event.

(** The collaborators.  [filepath.Join] and the identifier-to-address
    convention are functions of their arguments; every other answer may
    depend on all that happened before. *)
Record Host : Type :=
  { filepath_Join : list string -> string;
    (* vmnet.GetMACAddressFromUUID *)
    GetMACAddressFromUUID : string -> string * option error;
    answer : forall T : Type, history -> call T -> T }.

(** [ResolveStorePath] of libmachine's [BaseDriver], which is outside the
    sources: the file of that name in the directory of the machine,
    [filepath.Join(d.StorePath, "machines", d.MachineName, file)].  The
    driver builds the same directory itself for [hyperkit.New]. *)
Definition ResolveStorePath (H : Host) (b : BaseDriver) (file : string)
  : string :=
  filepath_Join H [StorePath b; "machines"; MachineName b; file].

(** ** Runs *)

Definition M (A : Type) : Type := history -> A * history.

Definition ret {A} (a : A) : M A := fun t => (a, t).

Definition bind {A B} (m : M A) (k : A -> M B) : M B :=
  fun t => let (a, t') := m t in k a t'.

Notation "x <- c ;; k" := (bind c (fun x => k))
  (at level 61, c at next level, right associativity).
Notation "' pat <- c ;; k" :=
  (bind c (fun x => match x with pat => k end))
  (at level 61, pat pattern, c at next level, right associativity).
Notation "c ;;; k" := (bind c (fun _ => k))
  (at level 61, right associativity).

(** Which events of a history are of a given kind. *)
Definition is_signal (e : event) : bool :=
  match ev_call e with Process_Signal _ _ => true | _ => false end.

(** A signal that asks the process to do something (not the 0 probe). *)
Definition is_delivery (e : event) : bool :=
  match ev_call e with
  | Process_Signal _ sig => negb (sig =? 0)
  | _ => false
  end.

Definition is_lookup (e : event) : bool :=
  match ev_call e with GetIPAddressByMACAddress _ => true | _ => false end.

Definition is_sleep (e : event) : bool :=
  match ev_call e with time_Sleep _ => true | _ => false end.

Definition is_sleep_of (d : Duration) (e : event) : bool :=
  match ev_call e with time_Sleep d' => d' =? d | _ => false end.

Definition is_createDiskImage (e : event) : bool :=
  match ev_call e with createDiskImage _ _ _ => true | _ => false end.

Definition is_fixPermissions (e : event) : bool :=
  match ev_call e with fixPermissions _ => true | _ => false end.

Definition count (p : event -> bool) (t : history) : nat :=
  length (filter p t).

(** ** Helpers that driver.go calls *)

(** [fmt.Sprintf] for a format with one [%s] verb. *)
Fixpoint Sprintf (format : string) (arg : string) : string :=
  match format with
  | EmptyString => EmptyString
  | String "%" (String "s" rest) => (arg ++ rest)%string
  | String c rest => String c (Sprintf rest arg)
  end.

(** Modelled from the spec: [GetIP] of libmachine's [BaseDriver], which
    [GetURL] calls, is not among the sources.  The spec: the URL "requires
    a resolved network address" and the call "fails ... if none is set". *)
Definition GetIP (b : BaseDriver) : string * option error :=
  if String.eqb (IPAddress b) EmptyString then
    (EmptyString, Some (errorString "IP address is not set"))
  else (IPAddress b, None).

(** Modelled from the spec: part of [trimMacAddress] below, the groups of
    an address between colons. *)
Fixpoint components (s : string) : list string :=
  match s with
  | EmptyString => [EmptyString]
  | String c r =>
      if Ascii.eqb c ":" then EmptyString :: components r
      else match components r with
           | g :: gs => String c g :: gs
           | [] => [String c EmptyString]
           end
  end.

(** Modelled from the spec: part of [trimMacAddress] below, a group
    without the zeros in front that do not carry its value; the last
    character always stays. *)
Fixpoint strip_zeros (g : string) : string :=
  match g with
  | String c (String _ _ as rest) =>
      if Ascii.eqb c "0" then strip_zeros rest else g
  | _ => g
  end.

(** Modelled from the spec: [trimMacAddress] (network.go) is not among the
    sources.  The spec: "a normalization step that strips any insignificant
    leading zero components", by "byte-group trimming": in each group
    between colons the leading zeros that do not carry the value go. *)
Definition trimMacAddress (mac : string) : string :=
  String.concat ":" (map strip_zeros (components mac)).

(** ** driver.go *)

Section Driver.

Variable H : Host.

(** One call: ask the host, record call and answer. *)
Definition perform {T} (c : call T) : M T :=
  fun t => let r := answer H t c in (r, t ++ [Ev c r]).

(** Modelled from the spec: [commonutil.RetryAfter] (pkg/util) is not among
    the sources.  The spec: it "polls ... up to maxAttempts times, sleeping
    interval between attempts, and fails ... if no lease appears within the
    attempt budget"; "failure mid-loop is not escalated, only final
    exhaustion is".  The callback may update the state it closes over. *)
Fixpoint RetryAfter {S : Type} (attempts : nat)
    (callback : S -> M (option error * S)) (d : Duration) (s : S)
  : M (option error * S) :=
  match attempts with
  | O => ret (Some (errorString "no attempts"), s)
  | Datatypes.S n =>
      '(err, s') <- callback s ;;
      match err with
      | None => ret (None, s')
      | Some e =>
          match n with
          | O => ret (Some e, s')
          | Datatypes.S _ => perform (time_Sleep d) ;;; RetryAfter n callback d s'
          end
      end
  end.

Definition NewDriver (hostName storePath : string) : Driver :=
  {| Base := {| IPAddress := EmptyString; MachineName := EmptyString;
                SSHUser := "docker"; SSHKeyPath := EmptyString;
                StorePath := EmptyString |};
     Boot2DockerURL := EmptyString;
     DiskSize := 0;
     CPU := 0;
     Memory := 0;
     Cmdline := EmptyString |}.

Definition DriverName (d : Driver) : string := "hyperkit".

Definition GetCreateFlags (d : Driver) : list Flag := [].

(** [GetSSHKeyPath] of libmachine's [BaseDriver], which is outside the
    sources: it answers [d.SSHKeyPath], after setting it to
    [d.ResolveStorePath("id_rsa")] if it was empty. *)
Definition GetSSHKeyPath (d : Driver) : string * Driver :=
  if String.eqb (SSHKeyPath (Base d)) EmptyString then
    let path := ResolveStorePath H (Base d) "id_rsa" in
    (path, set_SSHKeyPath path d)
  else (SSHKeyPath (Base d), d).

Definition GetSSHHostname (d : Driver) : string * option error :=
  (IPAddress (Base d), None).

Definition PreCreateCheck (d : Driver) : option error := None.

(** [opts] is libmachine's [drivers.DriverOptions]; the driver does not
    read it. *)
Definition SetConfigFromFlags {Options : Type} (d : Driver) (opts : Options)
  : option error := None.

Definition getPid (d : Driver) : M Z :=
  let pidPath := ResolveStorePath H (Base d) machineFileName in
  err <- perform (os_Open pidPath) ;;
  match err with
  | Some e =>
      perform (log_Warnf "Error reading pid file: %s" [FErr (Some e)]) ;;;
      ret 0
  | None =>
      r <- perform (json_Decode pidPath) ;;
      match r with
      | inr e =>
          perform (log_Warnf "Error decoding pid file: %s" [FErr (Some e)]) ;;;
          ret 0
      | inl pid => ret pid
      end
  end.

(** The test [p == nil] after a successful [p.Signal] cannot hold: the
    handle has just been used. *)
Definition GetState (d : Driver) : M (state.State * option error) :=
  pid <- getPid d ;;
  if pid =? 0 then ret (state.Stopped, None)
  else
    r <- perform (os_FindProcess pid) ;;
    match r with
    | inr err => ret (state.Error, Some err)
    | inl p =>
        err <- perform (Process_Signal p 0) ;;
        match err with
        | Some _ => ret (state.Stopped, None)
        | None => ret (state.Running, None)
        end
    end.

Definition sendSignal (d : Driver) (s : Signal) : M (option error) :=
  pid <- getPid d ;;
  r <- perform (os_FindProcess pid) ;;
  match r with
  | inr err => ret (Some err)
  | inl proc => perform (Process_Signal proc s)
  end.

Definition Kill (d : Driver) : M (option error) := sendSignal d SIGKILL.

Definition Stop (d : Driver) : M (option error) := sendSignal d SIGTERM.

Definition Remove (d : Driver) : M (option error) :=
  '(s, err) <- GetState d ;;
  (if match err with Some _ => true | None => false end
      || state.eqb s state.Error
   then perform (log_Infof
     "Error checking machine status: %s, assuming it has been removed already"
     [FErr err])
   else ret tt) ;;;
  if state.eqb s state.Running then
    err <- Stop d ;;
    match err with
    | Some e => ret (Some e)
    | None => ret None
    end
  else ret None.

Definition GetURL (d : Driver) : string * option error :=
  let '(ip, err) := GetIP (Base d) in
  match err with
  | Some e => (EmptyString, Some e)
  | None => (Sprintf "tcp://%s:2376" ip, None)
  end.

Definition publicSSHKeyPath (d : Driver) : string * Driver :=
  let '(path, d) := GetSSHKeyPath d in
  ((path ++ ".pub")%string, d).

(** [Start], lines 174-182: the disk image. *)
Definition diskPath (d : Driver) : string :=
  filepath_Join H
    [ResolveStorePath H (Base d) "."; (MachineName (Base d) ++ ".rawdisk")%string].

(** The path of the disk image is computed once, before the key path is
    asked for; the driver that comes back is the one [publicSSHKeyPath]
    left. *)
Definition Start_disk (d : Driver) : M (option error * Driver) :=
  let path := diskPath d in
  staterr <- perform (os_Stat path) ;;
  if os_IsNotExist staterr then
    let '(key, d) := publicSSHKeyPath d in
    err <- perform (createDiskImage key path (DiskSize d)) ;;
    match err with
    | Some e => ret (Some e, d)
    | None =>
        err <- perform (fixPermissions (ResolveStorePath H (Base d) ".")) ;;
        match err with
        | Some e => ret (Some e, d)
        | None => ret (None, d)
        end
    end
  else ret (None, d).

(** [Start], lines 184-220: configuration, identity, launch.  Answers
    with the link-layer address on success.  The disk path of the
    configuration is the one computed at line 174: it depends on the store
    path and the machine name only, which no step changes. *)
Definition Start_launch (d : Driver) : M (string + error) :=
  '(h, err) <- perform (hyperkit_New EmptyString EmptyString
     (filepath_Join H
        [StorePath (Base d); "machines"; MachineName (Base d)])) ;;
  match err with
  | Some e => ret (inr e)
  | None =>
      uuid <- perform uuid_NewUUID ;;
      perform (log_Infof "Generated UUID %s" [FStr uuid]) ;;;
      let '(mac, err) := GetMACAddressFromUUID H uuid in
      match err with
      | Some e => ret (inr e)
      | None =>
          let mac := trimMacAddress mac in
          perform (log_Infof "Generated MAC %s" [FStr mac]) ;;;
          let h :=
            {| StateDir := StateDir h;
               Kernel := ResolveStorePath H (Base d) "bzimage";
               Initrd := ResolveStorePath H (Base d) "initrd";
               VMNet := true;
               ISOImage := ResolveStorePath H (Base d) isoFilename;
               HConsole := ConsoleFile;
               CPUs := CPU d;
               HMemory := Memory d;
               UUID := uuid;
               Disks := [ {| DiskPath := diskPath d;
                             DiskConfigSize := DiskSize d;
                             DiskDriver := "virtio-blk" |} ] |} in
          perform (log_Infof "Starting with cmdline: %s"
                     [FStr (Cmdline d)]) ;;;
          err <- perform (HyperKit_Start h (Cmdline d)) ;;
          match err with
          | Some e => ret (inr e)
          | None => ret (inl mac)
          end
      end
  end.

(** [Start], lines 222-229: the closure handed to [RetryAfter].  The
    assignment to [d.IPAddress] happens whatever the lookup answers. *)
Definition getIP (mac : string) (d : Driver) : M (option error * Driver) :=
  '(ip, err) <- perform (GetIPAddressByMACAddress mac) ;;
  let d := set_IPAddress ip d in
  match err with
  | Some e => ret (Some (RetriableError e), d)
  | None => ret (None, d)
  end.

(** [Start], lines 231-234. *)
Definition Start_resolve (mac : string) (d : Driver)
  : M (option error * Driver) :=
  '(err, d) <- RetryAfter 30 (getIP mac) (2 * Second) d ;;
  match err with
  | Some e =>
      ret (Some (Errorf "IP address never found in dhcp leases file %v" e),
           d)
  | None => ret (None, d)
  end.

Definition Start (d : Driver) : M (option error * Driver) :=
  '(err, d) <- Start_disk d ;;
  match err with
  | Some e => ret (Some e, d)
  | None =>
      r <- Start_launch d ;;
      match r with
      | inr e => ret (Some e, d)
      | inl mac => Start_resolve mac d
      end
  end.

Definition Restart (d : Driver) : M (option error * Driver) :=
  err <- Stop d ;;
  match err with
  | Some e => ret (Some e, d)
  | None => Start d
  end.

End Driver.

(** ** Concrete hosts *)

(** A host made of a state file, a process table, a disk and a lease
    table.  [pidfile] is the identifier recorded in the state file, if the
    file is there; [kill] is the verdict of the process table on a signal
    to a pid; [stat] is the verdict on the disk image; [lease n] is what the
    lease table answers to a lookup made after [n] earlier ones. *)
Section Fake.

Variable pidfile : option Z.
Variable kill : Z -> option error.
Variable stat : option error.
Variable lease : nat -> string * option error.

Definition fake_answer (T : Type) (t : history) (c : call T) : T :=
  match c in call T return T with
  | os_Open name =>
      match pidfile with
      | Some _ => None
      | None => Some (PathError "open" name (Errno ENOENT))
      end
  | json_Decode _ =>
      match pidfile with
      | Some pid => inl pid
      | None => inr (errorString "EOF")
      end
  | os_FindProcess pid => inl {| Pid := pid |}
  | Process_Signal p _ =>
      if Pid p =? 0 then Some (errorString "os: process not initialized")
      else kill (Pid p)
  | os_Stat _ => stat
  | createDiskImage _ _ _ => None
  | fixPermissions _ => None
  | hyperkit_New _ _ dir =>
      ({| StateDir := dir; Kernel := EmptyString; Initrd := EmptyString; VMNet := false;
          ISOImage := EmptyString; HConsole := ConsoleStdio; CPUs := 0;
          HMemory := 0; UUID := EmptyString; Disks := [] |}, None)
  | uuid_NewUUID => "6ba7b810-9dad-11d1-80b4-00c04fd430c8"
  | HyperKit_Start _ _ => None
  | GetIPAddressByMACAddress _ => lease (count is_lookup t)
  | time_Sleep _ => tt
  | log_Infof _ _ => tt
  | log_Warnf _ _ => tt
  end.

Definition fake : Host :=
  {| filepath_Join := String.concat "/";
     GetMACAddressFromUUID := fun uuid =>
       if String.eqb uuid EmptyString then (EmptyString, Some (errorString "invalid uuid"))
       else ("0e:00:5d:0a:0b:01", None);
     answer := fake_answer |}.

End Fake.

Definition minikube : Driver :=
  {| Base := {| IPAddress := EmptyString; MachineName := "minikube";
                SSHUser := "docker"; SSHKeyPath := EmptyString;
                StorePath := "/Users/dev/.minikube" |};
     Boot2DockerURL := "file:///Users/dev/.minikube/cache/iso/minikube.iso";
     DiskSize := 20000;
     CPU := 2;
     Memory := 2048;
     Cmdline := "loglevel=3 console=ttyS0" |}.

Definition no_such_process : Z -> option error :=
  fun _ => Some (Errno ESRCH).
Definition not_permitted : Z -> option error :=
  fun _ => Some (Errno EPERM).
Definition alive : Z -> option error := fun _ => None.
Definition disk_present : option error := None.
Definition disk_absent : option error :=
  Some (PathError "stat" "minikube.rawdisk" (Errno ENOENT)).
Definition lease_at (k : nat) : nat -> string * option error :=
  fun n => if (Datatypes.S n <? k)%nat
           then (EmptyString, Some (errorString "could not find an IP address"))
           else ("192.168.64.2", None).
Definition no_lease : nat -> string * option error :=
  fun _ => (EmptyString, Some (errorString "could not find an IP address")).

(** ** Vocabulary of the statements *)

(** [emits P m]: a run of [m] only appends events, and all of them
    satisfy [P]. *)
Definition emits {A} (P : event -> Prop) (m : M A) : Prop :=
  forall t, exists l, snd (m t) = t ++ l /\ Forall P l.

(** The kinds of events of the phases of the driver. *)
Definition probe_event (e : event) : Prop :=
  match ev_call e with
  | os_Open _ | json_Decode _ | log_Warnf _ _ | os_FindProcess _ => True
  | Process_Signal _ sig => sig = 0
  | _ => False
  end.

Definition boot_event (e : event) : Prop :=
  match ev_call e with
  | hyperkit_New _ _ _ | uuid_NewUUID | log_Infof _ _ | HyperKit_Start _ _
  | GetIPAddressByMACAddress _ | time_Sleep _ => True
  | _ => False
  end.

Definition launch_event (e : event) : Prop :=
  match ev_call e with
  | hyperkit_New _ _ _ | uuid_NewUUID | log_Infof _ _ | HyperKit_Start _ _ =>
      True
  | _ => False
  end.

Definition disk_event (e : event) : Prop :=
  match ev_call e with
  | os_Stat _ | createDiskImage _ _ _ | fixPermissions _ => True
  | _ => False
  end.

(** [d'] is [d] except, possibly, for the address and the key path. *)
Definition only_address_and_key_differ (d d' : Driver) : Prop :=
  d' = set_SSHKeyPath (SSHKeyPath (Base d'))
         (set_IPAddress (IPAddress (Base d')) d).

(** The driver that a call of [GetSSHKeyPath] leaves. *)
Definition with_key_path (H : Host) (d : Driver) : Driver :=
  snd (GetSSHKeyPath H d).

(** The history after [n] lookups that each were followed by a sleep. *)
Fixpoint polled (H : Host) (mac : string) (dur : Duration) (n : nat)
    (t : history) : history :=
  match n with
  | O => t
  | Datatypes.S n =>
      polled H mac dur n
        (t ++ [ Ev (GetIPAddressByMACAddress mac)
                   (answer H t (GetIPAddressByMACAddress mac));
                Ev (time_Sleep dur) tt ])
  end.

(** A host whose lease table has the address from the second sleep on,
    however often it is asked before. *)
Definition timed_answer (T : Type) (t : history) (c : call T) : T :=
  match c in call T return T with
  | GetIPAddressByMACAddress _ =>
      if (2 <=? count is_sleep t)%nat then ("192.168.64.2", None)
      else (EmptyString, Some (errorString "could not find an IP address"))
  | c' => fake_answer None (fun _ => None) None
            (fun _ => (EmptyString, None)) t c'
  end.

Definition timed : Host :=
  {| filepath_Join := String.concat "/";
     GetMACAddressFromUUID := fun _ => ("0e:00:5d:0a:0b:01", None);
     answer := timed_answer |}.

Definition is_uuid (e : event) : bool :=
  match ev_call e with uuid_NewUUID => true | _ => false end.

Definition removal_notice : string :=
  "Error checking machine status: %s, assuming it has been removed already".

(** The events of the polling loop. *)
Definition poll_event (e : event) : Prop :=
  is_lookup e = true \/ is_sleep e = true.

Definition never_found : string :=
  "IP address never found in dhcp leases file %v".

Fixpoint no_colon (g : string) : bool :=
  match g with
  | EmptyString => true
  | String c r => negb (Ascii.eqb c ":") && no_colon r
  end.

(** A group with no zero in front of another character. *)
Definition trimmed (g : string) : bool :=
  match g with
  | String c (String _ _) => negb (Ascii.eqb c "0")
  | _ => true
  end.

Fixpoint zeros (n : nat) : string :=
  match n with
  | O => EmptyString
  | Datatypes.S n => String "0" (zeros n)
  end.

(** The identifier that a run of [Start_launch] from [t] generates. *)
Definition Start_uuid (H : Host) (d : Driver) (t : history) : string :=
  let c := hyperkit_New EmptyString EmptyString
             (filepath_Join H
                [StorePath (Base d); "machines"; MachineName (Base d)]) in
  answer H (t ++ [Ev c (answer H t c)]) uuid_NewUUID.

(** ** Vocabulary of the further statements *)

Definition is_warn (e : event) : bool :=
  match ev_call e with log_Warnf _ _ => true | _ => false end.

(** Calls that read the state file or touch the process table. *)
Definition is_process_call (e : event) : bool :=
  match ev_call e with
  | os_Open _ | json_Decode _ | os_FindProcess _ | Process_Signal _ _ => true
  | _ => false
  end.

Definition is_launch (e : event) : bool :=
  match ev_call e with HyperKit_Start _ _ => true | _ => false end.

(** A successful delivery of SIGTERM. *)
Definition is_SIGTERM_delivered (e : event) : bool :=
  match e with
  | Ev c r =>
      match c in call T return T -> bool with
      | Process_Signal _ sig =>
          fun r => (sig =? SIGTERM) &&
                   match r with Datatypes.None => true | Some _ => false end
      | _ => fun _ => false
      end r
  end.

(** What [Remove] may do: probe, log, and send SIGTERM. *)
Definition remove_event (e : event) : Prop :=
  match ev_call e with
  | os_Open _ | json_Decode _ | log_Warnf _ _ | log_Infof _ _
  | os_FindProcess _ => True
  | Process_Signal _ sig => sig = 0 \/ sig = SIGTERM
  | _ => False
  end.

(** The error, if any, of a step of [Start] whose failure [Start] checks. *)
Definition step_error (e : event) : option error :=
  match e with
  | Ev c r =>
      match c in call T return T -> option error with
      | createDiskImage _ _ _ => fun r => r
      | fixPermissions _ => fun r => r
      | hyperkit_New _ _ _ => fun r => snd r
      | HyperKit_Start _ _ => fun r => r
      | _ => fun _ => Datatypes.None
      end r
  end.

(** [P] holds of the configuration and command line of the event, if it
    is a launch. *)
Definition launches_with (P : HyperKit -> string -> Prop) (e : event) : Prop :=
  match ev_call e with
  | HyperKit_Start h cmdline => P h cmdline
  | _ => True
  end.

(** The event agrees with [uuid] being the identifier of the run: it is
    the one generated, the one handed to hyperkit, and the one whose
    address is looked up. *)
Definition identity_event (H : Host) (uuid : string) (e : event) : Prop :=
  match e with
  | Ev c r =>
      match c in call T return T -> Prop with
      | uuid_NewUUID => fun r => r = uuid
      | HyperKit_Start h _ => fun _ => UUID h = uuid
      | GetIPAddressByMACAddress mac =>
          fun _ => mac = trimMacAddress (fst (GetMACAddressFromUUID H uuid))
      | _ => fun _ => True
      end r
  end.

Definition lookup_answer (e : event) : option (string * option error) :=
  match e with
  | Ev c r =>
      match c in call T return T -> option (string * option error) with
      | GetIPAddressByMACAddress _ => fun r => Some r
      | _ => fun _ => Datatypes.None
      end r
  end.

(** The answer to the latest lease lookup of a history. *)
Fixpoint last_lookup (l : history) : option (string * option error) :=
  match l with
  | [] => Datatypes.None
  | e :: l' =>
      match last_lookup l' with
      | Some r => Some r
      | Datatypes.None => lookup_answer e
      end
  end.

(** ** Create and extractKernel *)

(** [Create] prepares the machine directory before it calls [Start].  The
    three collaborators of that preparation are further calls; a journal
    records them together with the events of [Start]. *)
Inductive prep_call : Type -> Type :=
| ssh_GenerateSSHKey (path : string) : prep_call (option error)
| CopyIsoToMachineDir (storePath isoURL machineName : string)
    : prep_call (option error)
| ExtractFile (isoPath pathInIso destPath : string) : prep_call (option error).

Inductive entry : Type :=
| Prep (T : Type) (c : prep_call T) (r : T)
| Ran (e : event).

Definition journal := list entry.

(** The collaborators of [Create]: those of [Host], with every answer
    depending on the journal so far. *)
Record Provisioner : Type :=
  { p_filepath_Join : list string -> string;
    p_GetMACAddressFromUUID : string -> string * option error;
    prep_answer : forall T : Type, journal -> prep_call T -> T;
    run_answer : forall T : Type, journal -> call T -> T }.

(** The host that a method called after journal [j] faces: its history
    continues the journal. *)
Definition host_at (P : Provisioner) (j : journal) : Host :=
  {| filepath_Join := p_filepath_Join P;
     GetMACAddressFromUUID := p_GetMACAddressFromUUID P;
     answer := fun T t c => run_answer P (j ++ map Ran t) c |}.

(** The accessors of libmachine over the path helper of a provisioner. *)
Definition p_ResolveStorePath (P : Provisioner) (b : BaseDriver)
    (file : string) : string :=
  ResolveStorePath (host_at P []) b file.

Definition p_GetSSHKeyPath (P : Provisioner) (d : Driver) : string * Driver :=
  GetSSHKeyPath (host_at P []) d.

Definition XM (A : Type) : Type := journal -> A * journal.

Definition xret {A} (a : A) : XM A := fun j => (a, j).

Definition xbind {A B} (m : XM A) (k : A -> XM B) : XM B :=
  fun j => let (a, j') := m j in k a j'.

Notation "x <-- c ;; k" := (xbind c (fun x => k))
  (at level 61, c at next level, right associativity).

Section Create.

Variable P : Provisioner.

Definition prepare {T} (c : prep_call T) : XM T :=
  fun j => let r := prep_answer P j c in (r, j ++ [Prep c r]).

(** The files of the loop of [extractKernel]: path in the ISO, name in the
    machine directory. *)
Definition kernel_files : list (string * string) :=
  [ ("/boot/bzimage", "bzimage");
    ("/boot/initrd", "initrd");
    ("/isolinux/isolinux.cfg", "isolinux.cfg") ].

Fixpoint extract_files (d : Driver) (isoPath : string)
    (files : list (string * string)) : XM (option error) :=
  match files with
  | [] => xret None
  | (pathInIso, destPath) :: rest =>
      let fullDestPath := p_ResolveStorePath P (Base d) destPath in
      err <-- prepare (ExtractFile isoPath pathInIso fullDestPath) ;;
      match err with
      | Some e => xret (Some e)
      | None => extract_files d isoPath rest
      end
  end.

Definition extractKernel (d : Driver) (isoPath : string) : XM (option error) :=
  extract_files d isoPath kernel_files.

(** [d.Start()] at the end of [Create]. *)
Definition run_Start (d : Driver) : XM (option error * Driver) :=
  fun j => let (r, t) := Start (host_at P j) d [] in (r, j ++ map Ran t).

Definition Create (d : Driver) : XM (option error * Driver) :=
  let '(key, d) := p_GetSSHKeyPath P d in
  err <-- prepare (ssh_GenerateSSHKey key) ;;
  match err with
  | Some e => xret (Some e, d)
  | None =>
      err <-- prepare (CopyIsoToMachineDir (StorePath (Base d))
                         (Boot2DockerURL d) (MachineName (Base d))) ;;
      match err with
      | Some e => xret (Some e, d)
      | None =>
          let isoPath := p_ResolveStorePath P (Base d) isoFilename in
          err <-- extractKernel d isoPath ;;
          match err with
          | Some e => xret (Some e, d)
          | None => run_Start d
          end
      end
  end.

End Create.

(** The journal entry of the extraction of file [f] of [kernel_files]
    that answered [r]. *)
Definition extraction (P : Provisioner) (d : Driver) (isoPath : string)
    (r : option error) (f : string * string) : entry :=
  Prep (ExtractFile isoPath (fst f) (p_ResolveStorePath P (Base d) (snd f))) r.

(** The journal of a preparation in which every step succeeded. *)
Definition prepared (P : Provisioner) (d : Driver) : journal :=
  [ Prep (ssh_GenerateSSHKey (fst (p_GetSSHKeyPath P d))) None;
    Prep (CopyIsoToMachineDir (StorePath (Base d)) (Boot2DockerURL d)
            (MachineName (Base d))) None ]
  ++ map (extraction P d (p_ResolveStorePath P (Base d) isoFilename) None)
         kernel_files.

(** The error of a preparation step. *)
Definition prep_error (s : entry) : option error :=
  match s with
  | Prep c r =>
      match c in prep_call T return T -> option error with
      | ssh_GenerateSSHKey _ => fun r => r
      | CopyIsoToMachineDir _ _ _ => fun r => r
      | ExtractFile _ _ _ => fun r => r
      end r
  | Ran _ => None
  end.

Definition is_prep (s : entry) : bool :=
  match s with Prep _ _ => true | Ran _ => false end.

Definition is_extract (s : entry) : bool :=
  match s with
  | Prep c _ => match c with ExtractFile _ _ _ => true | _ => false end
  | Ran _ => false
  end.

(** The entry is a successful extraction of [pathInIso] of [isoPath] to
    [destPath]. *)
Definition extracted (isoPath pathInIso destPath : string) (s : entry) : Prop :=
  match s with
  | Prep c r =>
      match c in prep_call T return T -> Prop with
      | ExtractFile i p q =>
          fun r => i = isoPath /\ p = pathInIso /\ q = destPath /\ r = None
      | _ => fun _ => False
      end r
  | Ran _ => False
  end.

(** The events of [Start] among the entries of a journal. *)
Fixpoint ran (j : journal) : history :=
  match j with
  | [] => []
  | Ran e :: j' => e :: ran j'
  | Prep _ _ :: j' => ran j'
  end.

(** A provisioner over the fake host: preparation answers are fixed, the
    host sees the events of the journal. *)
Definition fake_provisioner (keygen copy : option error)
    (extract : string -> option error)
    (pidfile : option Z) (kill : Z -> option error) (stat : option error)
    (lease : nat -> string * option error) : Provisioner :=
  let h := fake pidfile kill stat lease in
  {| p_filepath_Join := filepath_Join h;
     p_GetMACAddressFromUUID := GetMACAddressFromUUID h;
     prep_answer := fun T j c =>
       match c in prep_call T return T with
       | ssh_GenerateSSHKey _ => keygen
       | CopyIsoToMachineDir _ _ _ => copy
       | ExtractFile _ pathInIso _ => extract pathInIso
       end;
     run_answer := fun T j c => answer h (ran j) c |}.

(** ** Facts about runs *)

Lemma count_app p (t l : history) :
  count p (t ++ l) = (count p t + count p l)%nat.
Proof. unfold count. rewrite filter_app, length_app. reflexivity. Qed.

Lemma count_snoc p (t : history) e :
  count p (t ++ [e]) = (count p t + if p e then 1 else 0)%nat.
Proof. rewrite count_app. unfold count. simpl. destruct (p e); reflexivity. Qed.

(** [getPid] answers 0 when the state file cannot be opened or decoded,
    and records no signal, lookup, sleep or disk event. *)
Lemma getPid_absent H d t e :
  answer H t (os_Open (ResolveStorePath H (Base d) machineFileName)) = Some e ->
  fst (getPid H d t) = 0.
Proof.
  intros Ho. unfold getPid, bind, perform, ret. rewrite Ho. reflexivity.
Qed.

Lemma getPid_undecodable H d t e :
  let pidPath := ResolveStorePath H (Base d) machineFileName in
  answer H t (os_Open pidPath) = None ->
  answer H (t ++ [Ev (os_Open pidPath) None]) (json_Decode pidPath) = inr e ->
  fst (getPid H d t) = 0.
Proof.
  intros pidPath Ho Hd. unfold getPid, bind, perform, ret. fold pidPath.
  rewrite Ho, Hd. reflexivity.
Qed.

Lemma getPid_quiet H d t p :
  (forall T (c : call T) r,
      p (Ev c r) = true ->
      match c with
      | os_Open _ | json_Decode _ | log_Warnf _ _ => False
      | _ => True
      end) ->
  count p (snd (getPid H d t)) = count p t.
Proof.
  intros Hp. unfold getPid, bind, perform, ret.
  assert (Hz : forall T (c : call T) r,
             match c with
             | os_Open _ | json_Decode _ | log_Warnf _ _ => True
             | _ => False
             end -> p (Ev c r) = false).
  { intros T c r Hc. destruct (p (Ev c r)) eqn:E; [|reflexivity].
    apply Hp in E. destruct c; contradiction. }
  destruct (answer H t (os_Open _)) as [e|] eqn:Eo; simpl.
  - rewrite !count_snoc, !Hz by exact I. lia.
  - destruct (answer H _ (json_Decode _)) as [pid|e] eqn:Ej; simpl;
      rewrite !count_snoc, !Hz by exact I; lia.
Qed.

(** ** GetState *)

(** C1, as amended: [GetState] answers Stopped without an error when the
    persisted pid resolves to 0 (state file absent or undecodable); Error
    together with the error when looking the process up fails; Running when
    the zero-signal probe succeeds; and Stopped without an error when the
    probe fails, whatever the error of the probe is. *)
Theorem GetState_cases (H : Host) (d : Driver) (t : history) :
  let pid := fst (getPid H d t) in
  let t1 := snd (getPid H d t) in
  let pidPath := ResolveStorePath H (Base d) machineFileName in
  (forall e, answer H t (os_Open pidPath) = Some e -> pid = 0) /\
  (forall e,
      answer H t (os_Open pidPath) = None ->
      answer H (t ++ [Ev (os_Open pidPath) None]) (json_Decode pidPath)
      = inr e -> pid = 0) /\
  (pid = 0 -> fst (GetState H d t) = (state.Stopped, None)) /\
  (pid <> 0 ->
   (forall e, answer H t1 (os_FindProcess pid) = inr e ->
              fst (GetState H d t) = (state.Error, Some e)) /\
   (forall p, answer H t1 (os_FindProcess pid) = inl p ->
      let t2 := t1 ++ [Ev (os_FindProcess pid) (inl p)] in
      (answer H t2 (Process_Signal p 0) = None ->
       fst (GetState H d t) = (state.Running, None)) /\
      (forall e, answer H t2 (Process_Signal p 0) = Some e ->
                 fst (GetState H d t) = (state.Stopped, None)))).
Proof.
  intros pid t1 pidPath. split; [|split; [|split]].
  - intros e He. exact (getPid_absent H d t He).
  - intros e Ho Hd. exact (getPid_undecodable H d t Ho Hd).
  - intros Hz. unfold GetState, bind. fold pid.
    destruct (getPid H d t) as [pid' t'] eqn:E. simpl in pid, t1.
    subst pid. rewrite Hz. reflexivity.
  - intros Hnz. unfold GetState, bind, perform, ret.
    subst pid t1. destruct (getPid H d t) as [pid t1]. simpl in *.
    apply Z.eqb_neq in Hnz. rewrite Hnz. split.
    + intros e He. rewrite He. reflexivity.
    + intros p Hp. rewrite Hp. split.
      * intros Hs. rewrite Hs. reflexivity.
      * intros e Hs. rewrite Hs. reflexivity.
Qed.

(** The four cases on the fake process table. *)
Example GetState_no_state_file :
  fst (GetState (fake None alive disk_present no_lease) minikube [])
  = (state.Stopped, None).
Proof. reflexivity. Qed.

Example GetState_live_process :
  fst (GetState (fake (Some 4242) alive disk_present no_lease) minikube [])
  = (state.Running, None).
Proof. reflexivity. Qed.

Example GetState_stale_pid :
  fst (GetState (fake (Some 4242) no_such_process disk_present no_lease)
         minikube [])
  = (state.Stopped, None).
Proof. reflexivity. Qed.

(** C1, as stated, fails: the state file names pid 4242, the process is
    found, the zero-signal probe is refused with EPERM (permission denied,
    not "no such process"), and [GetState] answers Stopped with no error
    instead of Error with EPERM. *)
Lemma GetState_probe_refused_is_Stopped :
  let H := fake (Some 4242) not_permitted disk_present no_lease in
  let t1 := snd (getPid H minikube []) in
  fst (getPid H minikube []) = 4242 /\
  answer H t1 (os_FindProcess 4242) = inl {| Pid := 4242 |} /\
  answer H (t1 ++ [Ev (os_FindProcess 4242) (inl {| Pid := 4242 |})])
    (Process_Signal {| Pid := 4242 |} 0) = Some (Errno EPERM) /\
  Errno EPERM <> Errno ESRCH /\
  fst (GetState H minikube []) = (state.Stopped, None) /\
  fst (GetState H minikube []) <> (state.Error, Some (Errno EPERM)).
Proof.
  cbv zeta. repeat split; try reflexivity; discriminate.
Qed.

Lemma GetState_cases_witness :
  fst (GetState (fake (Some 4242) alive disk_present no_lease) minikube [])
  = (state.Running, None).
Proof.
  pose proof (GetState_cases (fake (Some 4242) alive disk_present no_lease)
                minikube []) as (_ & _ & _ & Hpid).
  destruct Hpid as [_ Hfound]; [discriminate|].
  destruct (Hfound {| Pid := 4242 |} eq_refl) as [Hrun _].
  exact (Hrun eq_refl).
Defined.

(** ** Stop and Kill *)

(** C2, as amended: [Stop] and [Kill] are [sendSignal] with SIGTERM and
    SIGKILL, and [sendSignal] does not look at the state of the VM.  It
    reads the persisted pid and looks the process up; if the lookup fails
    it returns that error and no signal is sent; otherwise it sends the
    signal to the process found, once, and returns what that call
    answers. *)
Theorem sendSignal_unguarded (H : Host) (d : Driver) (t : history) :
  Stop H d t = sendSignal H d SIGTERM t /\
  Kill H d t = sendSignal H d SIGKILL t /\
  forall s : Signal,
    let pid := fst (getPid H d t) in
    let t1 := snd (getPid H d t) in
    (forall e, answer H t1 (os_FindProcess pid) = inr e ->
       fst (sendSignal H d s t) = Some e /\
       count is_signal (snd (sendSignal H d s t)) = count is_signal t) /\
    (forall p, answer H t1 (os_FindProcess pid) = inl p ->
       let t2 := t1 ++ [Ev (os_FindProcess pid) (inl p)] in
       sendSignal H d s t
       = (answer H t2 (Process_Signal p s),
          t2 ++ [Ev (Process_Signal p s) (answer H t2 (Process_Signal p s))])
       /\ count is_signal (snd (sendSignal H d s t))
          = Datatypes.S (count is_signal t)).
Proof.
  split; [reflexivity|]. split; [reflexivity|].
  intros s pid t1.
  assert (Hq : count is_signal t1 = count is_signal t).
  { apply getPid_quiet. intros T c r. destruct c; simpl; auto; discriminate. }
  unfold sendSignal, bind, perform, ret. subst pid t1.
  destruct (getPid H d t) as [pid t1]. simpl in *. split.
  - intros e He. rewrite He. simpl. rewrite count_snoc. simpl.
    split; [reflexivity | lia].
  - intros p Hp. rewrite Hp. simpl. split; [reflexivity|].
    rewrite !count_snoc. simpl. lia.
Qed.

Lemma sendSignal_unguarded_witness :
  fst (Kill (fake (Some 4242) alive disk_present no_lease) minikube [])
  = None /\
  count is_signal
    (snd (Kill (fake (Some 4242) alive disk_present no_lease) minikube []))
  = 1%nat.
Proof.
  pose proof (sendSignal_unguarded
                (fake (Some 4242) alive disk_present no_lease) minikube [])
    as (_ & Hk & Hs).
  rewrite Hk.
  destruct (Hs SIGKILL) as [_ Hfound].
  destruct (Hfound {| Pid := 4242 |} eq_refl) as [Hrun Hcount].
  split; [rewrite Hrun; reflexivity | exact Hcount].
Defined.

(** C2, as stated, fails: the state file names pid 4242 and the process
    table has no such process, so the VM is Stopped; [Stop] and [Kill]
    nevertheless send SIGTERM and SIGKILL to pid 4242 and return the
    error of that call (ESRCH). *)
Lemma Stop_on_stopped_VM_signals_and_fails :
  let H := fake (Some 4242) no_such_process disk_present no_lease in
  fst (GetState H minikube []) = (state.Stopped, None) /\
  fst (Stop H minikube []) = Some (Errno ESRCH) /\
  count is_delivery (snd (Stop H minikube [])) = 1%nat /\
  fst (Kill H minikube []) = Some (Errno ESRCH) /\
  count is_delivery (snd (Kill H minikube [])) = 1%nat /\
  ~ (fst (Stop H minikube []) = None /\
     count is_delivery (snd (Stop H minikube [])) = 0%nat).
Proof.
  cbv zeta. repeat split; try reflexivity.
  intros [Hok _]. discriminate Hok.
Qed.

(** With no state file at all the pid is 0; [sendSignal] still looks up
    process 0 and calls [Signal] on the handle, and returns its error. *)
Example Stop_without_state_file :
  let H := fake None no_such_process disk_present no_lease in
  fst (getPid H minikube []) = 0 /\
  fst (Stop H minikube [])
  = Some (errorString "os: process not initialized") /\
  count is_signal (snd (Stop H minikube [])) = 1%nat.
Proof. cbv zeta. repeat split; reflexivity. Qed.

(** ** DriverName, GetCreateFlags, NewDriver, GetURL *)

(** C6, as amended: [DriverName] answers "hyperkit" for every driver, and
    [GetCreateFlags] answers nil, the empty flag list: the driver declares
    no create flags. *)
Theorem DriverName_GetCreateFlags (d : Driver) :
  DriverName d = "hyperkit" /\ GetCreateFlags d = [].
Proof. split; reflexivity. Qed.

(** C6, as stated, fails: the flag list of a configured driver is empty,
    so no configuration option is enumerated in it. *)
Lemma GetCreateFlags_is_empty :
  length (GetCreateFlags minikube) = 0%nat /\
  ~ (GetCreateFlags minikube <> []).
Proof. split; [reflexivity | intros Hne; apply Hne; reflexivity]. Qed.

(** C9: [NewDriver] does not look at its arguments; the driver it builds
    has SSHUser "docker" and empty MachineName and StorePath. *)
Theorem NewDriver_ignores_arguments (hostName storePath : string) :
  NewDriver hostName storePath = NewDriver EmptyString EmptyString /\
  SSHUser (Base (NewDriver hostName storePath)) = "docker" /\
  MachineName (Base (NewDriver hostName storePath)) = EmptyString /\
  StorePath (Base (NewDriver hostName storePath)) = EmptyString.
Proof. repeat split. Qed.

Lemma Sprintf_url (ip : string) :
  Sprintf "tcp://%s:2376" ip = ("tcp://" ++ ip ++ ":2376")%string.
Proof. reflexivity. Qed.

(** C8: [GetURL] fails when the driver holds no address, answers
    "tcp://<address>:2376" for the address it holds otherwise, and a URL
    answered without an error is never built from an unset address. *)
Theorem GetURL_requires_address (d : Driver) :
  (IPAddress (Base d) = EmptyString -> exists e, GetURL d = (EmptyString, Some e)) /\
  (IPAddress (Base d) <> EmptyString ->
   GetURL d = (("tcp://" ++ IPAddress (Base d) ++ ":2376")%string, None)) /\
  (forall url, GetURL d = (url, None) -> IPAddress (Base d) <> EmptyString).
Proof.
  unfold GetURL, GetIP.
  destruct (String.eqb_spec (IPAddress (Base d)) EmptyString) as [He|Hne].
  - split; [|split].
    + intros _. eexists. reflexivity.
    + intros Hne. contradiction.
    + intros url Hu. discriminate Hu.
  - split; [|split].
    + intros He. contradiction.
    + intros _. rewrite Sprintf_url. reflexivity.
    + intros url _. exact Hne.
Qed.

Lemma GetURL_requires_address_witness :
  GetURL (set_IPAddress "192.168.64.2" minikube)
  = ("tcp://192.168.64.2:2376", None) /\
  exists e, GetURL minikube = (EmptyString, Some e).
Proof.
  split.
  - apply (GetURL_requires_address (set_IPAddress "192.168.64.2" minikube)).
    simpl. discriminate.
  - apply (GetURL_requires_address minikube). reflexivity.
Defined.

(** ** What a run may add to the history *)

Lemma emits_ret {A} (P : event -> Prop) (a : A) : emits P (ret a).
Proof. intros t. exists []. simpl. rewrite app_nil_r. auto. Qed.

Lemma emits_perform H {T} (P : event -> Prop) (c : call T) :
  (forall r, P (Ev c r)) -> emits P (perform H c).
Proof.
  intros Hc t. exists [Ev c (answer H t c)]. simpl. auto.
Qed.

Lemma emits_bind {A B} (P : event -> Prop) (m : M A) (k : A -> M B) :
  emits P m -> (forall a, emits P (k a)) -> emits P (bind m k).
Proof.
  intros Hm Hk t. unfold bind.
  destruct (Hm t) as (l1 & E1 & F1).
  destruct (m t) as [a t1]. simpl in E1. subst t1.
  destruct (Hk a (t ++ l1)) as (l2 & E2 & F2).
  exists (l1 ++ l2). rewrite E2, app_assoc. split; [reflexivity|].
  apply Forall_app. auto.
Qed.

Lemma emits_count {A} (P : event -> Prop) (p : event -> bool) (m : M A) :
  emits P m -> (forall e, P e -> p e = false) ->
  forall t, count p (snd (m t)) = count p t.
Proof.
  intros Hm Hp t. destruct (Hm t) as (l & E & F). rewrite E, count_app.
  assert (Hz : count p l = 0%nat).
  { clear E. unfold count. induction F as [|e l He _ IH]; simpl; [reflexivity|].
    rewrite (Hp e He). exact IH. }
  lia.
Qed.

Ltac emits_step :=
  match goal with
  | |- emits _ (bind _ _) => apply emits_bind; [|intros]
  | |- emits _ (perform _ _) => apply emits_perform; intros; exact I
  | |- emits _ (ret _) => apply emits_ret
  | |- emits _ (match ?x with _ => _ end) => destruct x
  end.

Lemma emits_weaken {A} (P Q : event -> Prop) (m : M A) :
  (forall e, P e -> Q e) -> emits P m -> emits Q m.
Proof.
  intros HPQ Hm t. destruct (Hm t) as (l & E & F). exists l.
  split; [exact E|]. revert F. apply Forall_impl. exact HPQ.
Qed.

Lemma GetState_emits H d : emits probe_event (GetState H d).
Proof.
  unfold GetState, getPid. repeat emits_step.
  all: try (destruct (_ =? 0); repeat emits_step).
  all: try (apply emits_perform; intros; reflexivity).
Qed.

Lemma RetryAfter_emits H {S} (P : event -> Prop) n
      (callback : S -> M (option error * S)) dur :
  (forall s, emits P (callback s)) -> (forall r, P (Ev (time_Sleep dur) r)) ->
  forall s, emits P (RetryAfter H n callback dur s).
Proof.
  intros Hcb Hsl. induction n as [|n IH]; intros s; simpl.
  - apply emits_ret.
  - apply emits_bind; [apply Hcb|]. intros [[e|] s'].
    + destruct n; [apply emits_ret|].
      apply emits_bind; [apply emits_perform; exact Hsl|]. intros _. apply IH.
    + apply emits_ret.
Qed.

Lemma getIP_emits H mac d : emits boot_event (getIP H mac d).
Proof. unfold getIP. repeat emits_step. Qed.

Lemma Start_resolve_emits H mac d : emits boot_event (Start_resolve H mac d).
Proof.
  unfold Start_resolve. apply emits_bind.
  - apply RetryAfter_emits; [intros; apply getIP_emits | intros; exact I].
  - intros [[e|] d']; apply emits_ret.
Qed.

Lemma Start_launch_emits H d : emits launch_event (Start_launch H d).
Proof.
  unfold Start_launch. repeat emits_step.
Qed.

Lemma launch_is_boot_event e : launch_event e -> boot_event e.
Proof.
  destruct e as [T c r]. unfold launch_event, boot_event. simpl.
  destruct c; auto.
Qed.

Lemma Start_disk_emits H d : emits disk_event (Start_disk H d).
Proof.
  unfold Start_disk. repeat emits_step.
Qed.

(** What follows the disk phase in [Start]. *)
Lemma Start_after_disk_emits H d :
  emits boot_event
    (r <- Start_launch H d ;;
     match r with
     | inr e => ret (Some e, d)
     | inl mac => Start_resolve H mac d
     end).
Proof.
  apply emits_bind.
  - apply emits_weaken with (P := launch_event);
      [exact launch_is_boot_event | apply Start_launch_emits].
  - intros [mac|e]; [apply Start_resolve_emits | apply emits_ret].
Qed.

Lemma boot_event_no_disk e :
  boot_event e -> is_createDiskImage e = false /\ is_fixPermissions e = false.
Proof.
  destruct e as [T c r]. unfold boot_event, is_createDiskImage,
    is_fixPermissions. simpl. destruct c; intros []; split; reflexivity.
Qed.

Lemma count_zero_of_Forall (P : event -> Prop) p l :
  Forall P l -> (forall e, P e -> p e = false) -> count p l = 0%nat.
Proof.
  intros F Hp. unfold count.
  induction F as [|e l He _ IH]; simpl; [reflexivity|].
  rewrite (Hp e He). exact IH.
Qed.

(** ** The key path *)

Lemma with_key_path_cases H d :
  (SSHKeyPath (Base d) <> EmptyString /\ GetSSHKeyPath H d = (SSHKeyPath (Base d), d)) \/
  (SSHKeyPath (Base d) = EmptyString /\
   GetSSHKeyPath H d
   = (ResolveStorePath H (Base d) "id_rsa",
      set_SSHKeyPath (ResolveStorePath H (Base d) "id_rsa") d)).
Proof.
  unfold GetSSHKeyPath.
  destruct (String.eqb_spec (SSHKeyPath (Base d)) EmptyString) as [E|E];
    [right | left]; split; auto.
Qed.

Lemma publicSSHKeyPath_driver H d :
  snd (publicSSHKeyPath H d) = with_key_path H d.
Proof.
  unfold publicSSHKeyPath, with_key_path.
  destruct (GetSSHKeyPath H d). reflexivity.
Qed.

(** Asking for the key path changes nothing but the key path. *)
Lemma with_key_path_frame H d :
  with_key_path H d
  = set_SSHKeyPath (SSHKeyPath (Base (with_key_path H d))) d /\
  (forall file, ResolveStorePath H (Base (with_key_path H d)) file
                = ResolveStorePath H (Base d) file) /\
  diskPath H (with_key_path H d) = diskPath H d.
Proof.
  unfold with_key_path.
  destruct (with_key_path_cases H d) as [[_ E]|[_ E]]; rewrite E; cbn [snd].
  - destruct d as [[] ]. repeat split.
  - repeat split.
Qed.

(** ** Start: the disk image *)

Lemma Start_disk_run H d t :
  let staterr := answer H t (os_Stat (diskPath H d)) in
  let t1 := t ++ [Ev (os_Stat (diskPath H d)) staterr] in
  let c := createDiskImage (fst (publicSSHKeyPath H d)) (diskPath H d)
             (DiskSize d) in
  let f := fixPermissions (ResolveStorePath H (Base d) ".") in
  Start_disk H d t
  = if os_IsNotExist staterr then
      match answer H t1 c with
      | Some e => ((Some e, with_key_path H d), t1 ++ [Ev c (Some e)])
      | None =>
          ((answer H (t1 ++ [Ev c None]) f, with_key_path H d),
           (t1 ++ [Ev c None])
             ++ [Ev f (answer H (t1 ++ [Ev c None]) f)])
      end
    else ((None, d), t1).
Proof.
  intros staterr t1 c f. subst c f t1.
  unfold Start_disk, bind, perform, ret. fold staterr.
  destruct (os_IsNotExist staterr); [|reflexivity].
  rewrite <- publicSSHKeyPath_driver.
  destruct (with_key_path_frame H d) as (_ & HR & _).
  rewrite <- publicSSHKeyPath_driver in HR.
  destruct (publicSSHKeyPath H d) as [key d1] eqn:Ek. cbn [fst snd] in *.
  assert (Hs : DiskSize d1 = DiskSize d).
  { pose proof (publicSSHKeyPath_driver H d) as E. rewrite Ek in E.
    cbn [snd] in E. rewrite E.
    destruct (with_key_path_frame H d) as (-> & _). reflexivity. }
  rewrite Hs, HR.
  destruct (answer H _ (createDiskImage _ _ _)) as [e|]; [reflexivity|].
  destruct (answer H _ (fixPermissions _)) as [e|]; reflexivity.
Qed.

Lemma Start_unfold H d t :
  Start H d t
  = match Start_disk H d t with
    | ((Some e, d1), t1) => ((Some e, d1), t1)
    | ((None, d1), t1) =>
        (r <- Start_launch H d1 ;;
         match r with
         | inr e => ret (Some e, d1)
         | inl mac => Start_resolve H mac d1
         end) t1
    end.
Proof.
  unfold Start, bind. destruct (Start_disk H d t) as [[[e|] d1] t1];
    reflexivity.
Qed.

(** C5: when [os.Stat] does not report the disk image as missing (in
    particular when the file is there), [Start] calls neither
    [createDiskImage] nor [fixPermissions].  When it is reported missing,
    the first thing [Start] does is create it at that path with the
    configured size; permissions are fixed next if that succeeded, and
    neither is called again. *)
Theorem Start_keeps_existing_disk (H : Host) (d : Driver) (t : history) :
  let staterr := answer H t (os_Stat (diskPath H d)) in
  let t' := snd (Start H d t) in
  (staterr = None -> os_IsNotExist staterr = false) /\
  (os_IsNotExist staterr = false ->
   count is_createDiskImage t' = count is_createDiskImage t /\
   count is_fixPermissions t' = count is_fixPermissions t) /\
  (os_IsNotExist staterr = true ->
   exists r l,
     t' = t ++ Ev (os_Stat (diskPath H d)) staterr
            :: Ev (createDiskImage (fst (publicSSHKeyPath H d)) (diskPath H d)
                     (DiskSize d)) r
            :: l /\
     count is_createDiskImage l = 0%nat /\
     (r <> None -> l = []) /\
     (r = None ->
      exists r' l',
        l = Ev (fixPermissions (ResolveStorePath H (Base d) ".")) r' :: l' /\
        count is_fixPermissions l' = 0%nat)).
Proof.
  intros staterr t'. split; [intros ->; reflexivity|].
  pose proof (Start_after_disk_emits H) as Hrest.
  pose proof boot_event_no_disk as Hnd.
  subst t'. rewrite Start_unfold, Start_disk_run. fold staterr. cbv zeta.
  split.
  - intros Hgate. rewrite Hgate.
    destruct (Hrest d (t ++ [Ev (os_Stat (diskPath H d)) staterr]))
      as (l & E & F).
    rewrite E, !count_app.
    rewrite (count_zero_of_Forall is_createDiskImage F),
            (count_zero_of_Forall is_fixPermissions F)
      by (intros e He; apply Hnd; exact He).
    unfold count. simpl. split; lia.
  - intros Hgate. rewrite Hgate.
    set (t1 := t ++ [Ev (os_Stat (diskPath H d)) staterr]).
    set (c := createDiskImage (fst (publicSSHKeyPath H d)) (diskPath H d)
                (DiskSize d)).
    exists (answer H t1 c).
    destruct (answer H t1 c) as [e|] eqn:Ec.
    + exists []. cbn [snd]. subst t1. rewrite <- app_assoc. cbn [app].
      repeat split; try reflexivity. intros Hn. discriminate Hn.
    + set (t2 := t1 ++ [Ev c None]).
      set (f := fixPermissions (ResolveStorePath H (Base d) ".")).
      destruct (answer H t2 f) as [e|] eqn:Ef.
      * exists [Ev f (Some e)]. cbn [snd]. subst t2 t1.
        rewrite <- !app_assoc. cbn [app].
        repeat split; try reflexivity; try congruence.
        intros _. exists (Some e), []. split; reflexivity.
      * destruct (Hrest (with_key_path H d) (t2 ++ [Ev f None]))
          as (l & E & F).
        exists (Ev f None :: l). rewrite E. subst t2 t1.
        rewrite <- !app_assoc. cbn [app].
        repeat split; try reflexivity; try congruence.
        -- rewrite <- (count_zero_of_Forall is_createDiskImage F)
             by (intros e He; apply Hnd; exact He).
           reflexivity.
        -- intros _. exists None, l. split; [reflexivity|].
           apply (count_zero_of_Forall is_fixPermissions F).
           intros e He; apply Hnd; exact He.
Qed.

Lemma Start_keeps_existing_disk_witness :
  let H := fake (Some 4242) alive disk_present (lease_at 2) in
  count is_createDiskImage (snd (Start H minikube [])) = 0%nat /\
  count is_fixPermissions (snd (Start H minikube [])) = 0%nat.
Proof.
  intros H.
  pose proof (Start_keeps_existing_disk H minikube []) as (_ & Hkeep & _).
  apply Hkeep. reflexivity.
Defined.

Example Start_creates_missing_disk :
  let H := fake None alive disk_absent (lease_at 1) in
  filter (fun e => is_createDiskImage e || is_fixPermissions e)
         (snd (Start H minikube []))
  = [ Ev (createDiskImage "/Users/dev/.minikube/machines/minikube/id_rsa.pub"
            "/Users/dev/.minikube/machines/minikube/./minikube.rawdisk" 20000)
         None;
      Ev (fixPermissions "/Users/dev/.minikube/machines/minikube/.") None ].
Proof. reflexivity. Qed.

(** ** Start: what it changes on the driver *)

Lemma frame_refl d : only_address_and_key_differ d d.
Proof. destruct d as [[] ]. reflexivity. Qed.

Lemma frame_trans d1 d2 d3 :
  only_address_and_key_differ d1 d2 -> only_address_and_key_differ d2 d3 ->
  only_address_and_key_differ d1 d3.
Proof.
  unfold only_address_and_key_differ. intros H12 H23. rewrite H23 at 1.
  rewrite H12. reflexivity.
Qed.

Lemma RetryAfter_invariant H {S} (R : S -> S -> Prop) n
      (callback : S -> M (option error * S)) dur :
  (forall s, R s s) -> (forall a b c, R a b -> R b c -> R a c) ->
  (forall s t, R s (snd (fst (callback s t)))) ->
  forall s t, R s (snd (fst (RetryAfter H n callback dur s t))).
Proof.
  intros Hrefl Htrans Hcb. induction n as [|n IH]; intros s t; simpl.
  - apply Hrefl.
  - unfold bind. pose proof (Hcb s t) as Hs.
    destruct (callback s t) as [[[e|] s'] t1]; simpl in *; [|exact Hs].
    destruct n; [exact Hs|].
    unfold perform. simpl. eapply Htrans; [exact Hs | apply IH].
Qed.

(** The polling loop changes the address only. *)
Lemma Start_resolve_driver H mac d t :
  let d' := snd (fst (Start_resolve H mac d t)) in
  d' = set_IPAddress (IPAddress (Base d')) d.
Proof.
  set (R := fun a b : Driver => b = set_IPAddress (IPAddress (Base b)) a).
  assert (Hinv : R d (snd (fst (RetryAfter H 30 (getIP H mac) (2 * Second)
                                  d t)))).
  { apply RetryAfter_invariant.
    - intros [[] ]. reflexivity.
    - unfold R. intros a b c Hab Hbc. rewrite Hbc at 1. rewrite Hab.
      reflexivity.
    - intros s u. unfold R, getIP, bind, perform, ret.
      destruct (answer H u (GetIPAddressByMACAddress mac)) as [ip [e|]];
        reflexivity. }
  unfold Start_resolve, bind.
  destruct (RetryAfter H 30 (getIP H mac) (2 * Second) d t)
    as [[[e|] d'] t3]; exact Hinv.
Qed.

(** The driver after the disk phase: the key path has been asked for
    exactly when the disk image was found missing. *)
Lemma Start_disk_driver H d t :
  snd (fst (Start_disk H d t))
  = if os_IsNotExist (answer H t (os_Stat (diskPath H d)))
    then with_key_path H d else d.
Proof.
  rewrite Start_disk_run. cbv zeta.
  destruct (os_IsNotExist _); [|reflexivity].
  destruct (answer H _ (createDiskImage _ _ _)); reflexivity.
Qed.

(** The driver after [Start]: the one of the disk phase, with the address
    that the polling loop left, if it ran. *)
Lemma Start_driver H d t :
  let d1 := snd (fst (Start_disk H d t)) in
  let d' := snd (fst (Start H d t)) in
  d' = set_IPAddress (IPAddress (Base d')) d1.
Proof.
  assert (Hr : forall a : Driver, a = set_IPAddress (IPAddress (Base a)) a).
  { intros [[] ]. reflexivity. }
  rewrite Start_unfold.
  destruct (Start_disk H d t) as [[[e|] d1] t1]; cbn [fst snd]; [apply Hr|].
  unfold bind.
  destruct (Start_launch H d1 t1) as [[mac|e] t2]; [|apply Hr].
  apply Start_resolve_driver.
Qed.

Lemma Start_frame H d t :
  only_address_and_key_differ d (snd (fst (Start H d t))).
Proof.
  pose proof (Start_driver H d t) as Hd. cbv zeta in Hd.
  rewrite Start_disk_driver in Hd.
  unfold only_address_and_key_differ. rewrite Hd at 1.
  destruct (os_IsNotExist _).
  - destruct (with_key_path_frame H d) as (Hk & _). rewrite Hk.
    destruct d as [[] ]. rewrite Hd. reflexivity.
  - destruct d as [[] ]. rewrite Hd. reflexivity.
Qed.

(** C10, as amended: whatever [Start] returns, the driver it leaves behind
    is the driver it was called on except for [IPAddress] and
    [SSHKeyPath]: DiskSize, CPU, Memory, Boot2DockerURL, Cmdline,
    MachineName, StorePath and SSHUser are unchanged.  [SSHKeyPath]
    changes only when it was empty and the disk image was reported
    missing: it then is the id_rsa file of the machine directory. *)
Theorem Start_changes_only_address_and_key_path
        (H : Host) (d : Driver) (t : history) :
  let d' := snd (fst (Start H d t)) in
  d' = set_SSHKeyPath (SSHKeyPath (Base d'))
         (set_IPAddress (IPAddress (Base d')) d) /\
  DiskSize d' = DiskSize d /\
  CPU d' = CPU d /\
  Memory d' = Memory d /\
  Boot2DockerURL d' = Boot2DockerURL d /\
  Cmdline d' = Cmdline d /\
  MachineName (Base d') = MachineName (Base d) /\
  StorePath (Base d') = StorePath (Base d) /\
  SSHUser (Base d') = SSHUser (Base d) /\
  (SSHKeyPath (Base d') = SSHKeyPath (Base d) \/
   (SSHKeyPath (Base d) = EmptyString /\
    os_IsNotExist (answer H t (os_Stat (diskPath H d))) = true /\
    SSHKeyPath (Base d') = ResolveStorePath H (Base d) "id_rsa")).
Proof.
  intros d'. pose proof (Start_frame H d t) as Hf.
  fold d' in Hf. unfold only_address_and_key_differ in Hf.
  split; [exact Hf|].
  repeat (split; [rewrite Hf; reflexivity|]).
  pose proof (Start_driver H d t) as Hd. cbv zeta in Hd. fold d' in Hd.
  rewrite Start_disk_driver in Hd. rewrite Hd.
  destruct (os_IsNotExist _); [|left; reflexivity].
  unfold with_key_path.
  destruct (with_key_path_cases H d) as [[_ E]|[E0 E]]; rewrite E; cbn [snd].
  - left. reflexivity.
  - right. repeat split. exact E0.
Qed.

(** C10, as stated, fails: the disk image is missing and the key path of
    the driver is empty; [Start] succeeds and leaves a driver whose
    [SSHKeyPath] is set, a field other than [IPAddress]. *)
Lemma Start_fills_SSHKeyPath :
  let H := fake None alive disk_absent (lease_at 1) in
  let d' := snd (fst (Start H minikube [])) in
  fst (fst (Start H minikube [])) = None /\
  SSHKeyPath (Base minikube) = EmptyString /\
  SSHKeyPath (Base d') = "/Users/dev/.minikube/machines/minikube/id_rsa" /\
  d' <> set_IPAddress (IPAddress (Base d')) minikube.
Proof.
  cbv zeta. repeat split. discriminate.
Qed.

(** A failed [Start] may still have written the address field: the
    closure assigns whatever the lookup returned. *)
Example Start_failed_keeps_configuration :
  let H := fake None alive disk_present no_lease in
  fst (Start H (set_IPAddress "10.0.0.7" minikube) [])
  = (Some (Errorf "IP address never found in dhcp leases file %v"
             (RetriableError (errorString "could not find an IP address"))),
     minikube).
Proof. reflexivity. Qed.

(** ** Remove *)

Lemma GetState_results H d t :
  let r := fst (GetState H d t) in
  (r = (state.Stopped, None) \/ r = (state.Running, None)) \/
  exists e, r = (state.Error, Some e).
Proof.
  unfold GetState, bind, perform, ret.
  destruct (getPid H d t) as [pid t1].
  destruct (pid =? 0); simpl; [auto|].
  destruct (answer H t1 (os_FindProcess pid)) as [p|e]; simpl; [|eauto].
  destruct (answer H _ (Process_Signal p 0)); simpl; auto.
Qed.

Lemma probe_event_no_delivery e : probe_event e -> is_delivery e = false.
Proof.
  destruct e as [T c r]. unfold probe_event, is_delivery. simpl.
  destruct c; try (intros []; fail); try reflexivity.
  intros ->. reflexivity.
Qed.

(** C7: [Remove] probes the state first.  If the probe answers an error
    or the Error state, [Remove] logs and returns success.  If the state is
    Running, what [Remove] does next and what it returns is [Stop], run
    after the probe.  If the state is not Running, [Remove] returns success
    having done nothing after the probe but, possibly, log: [Stop] is not
    run and no signal asks the process to stop. *)
Theorem Remove_best_effort (H : Host) (d : Driver) (t : history) :
  let s := fst (fst (GetState H d t)) in
  let err := snd (fst (GetState H d t)) in
  let t1 := snd (GetState H d t) in
  (err <> None \/ s = state.Error ->
   Remove H d t = (None, t1 ++ [Ev (log_Infof removal_notice [FErr err]) tt]))
  /\
  (s = state.Running -> Remove H d t = Stop H d t1) /\
  (s <> state.Running ->
   fst (Remove H d t) = None /\
   (snd (Remove H d t) = t1 \/
    snd (Remove H d t)
    = t1 ++ [Ev (log_Infof removal_notice [FErr err]) tt]) /\
   count is_delivery (snd (Remove H d t)) = count is_delivery t).
Proof.
  intros s err t1.
  pose proof (GetState_results H d t) as Hres.
  pose proof (emits_count is_delivery (GetState_emits H d)
                probe_event_no_delivery t) as Hq.
  fold t1 in Hq. subst s err t1. unfold Remove, bind.
  destruct (GetState H d t) as [[s err] t1]. simpl in *.
  destruct Hres as [[Hr|Hr]|[e Hr]]; inversion Hr; subst; simpl.
  - split; [intros [Hc|Hc]; congruence|]. split; [congruence|].
    intros _. split; [reflexivity|]. split; [left; reflexivity | exact Hq].
  - split; [intros [Hc|Hc]; congruence|]. split; [|congruence].
    intros _. unfold ret. destruct (Stop H d t1) as [[e|] t2]; reflexivity.
  - unfold perform, ret. simpl.
    destruct (answer H t1 (log_Infof _ [FErr (Some e)])).
    split; [intros _; reflexivity|]. split; [congruence|].
    intros _. split; [reflexivity|]. split; [right; reflexivity|].
    rewrite count_snoc. simpl. lia.
Qed.

Lemma Remove_best_effort_witness :
  let H := fake (Some 4242) not_permitted disk_present no_lease in
  fst (Remove H minikube []) = None /\
  count is_delivery (snd (Remove H minikube [])) = 0%nat.
Proof.
  intros H.
  pose proof (Remove_best_effort H minikube []) as (_ & _ & Hquiet).
  destruct Hquiet as (Hnil & _ & Hcount); [discriminate|].
  split; [exact Hnil | exact Hcount].
Defined.

Example Remove_stops_running_VM :
  let H := fake (Some 4242) alive disk_present no_lease in
  fst (Remove H minikube []) = None /\
  filter is_delivery (snd (Remove H minikube []))
  = [Ev (Process_Signal {| Pid := 4242 |} SIGTERM) None].
Proof. split; reflexivity. Qed.

(** ** Start: resolving the address *)

Lemma set_IPAddress_twice ip ip' d :
  set_IPAddress ip (set_IPAddress ip' d) = set_IPAddress ip d.
Proof. reflexivity. Qed.

Lemma poll_lookup mac r : poll_event (Ev (GetIPAddressByMACAddress mac) r).
Proof. left. reflexivity. Qed.

Lemma poll_sleep dur r : poll_event (Ev (time_Sleep dur) r).
Proof. right. reflexivity. Qed.

Lemma getIP_run H mac d t :
  getIP H mac d t
  = let r := answer H t (GetIPAddressByMACAddress mac) in
    ((match snd r with
      | Some e => Some (RetriableError e)
      | None => None
      end, set_IPAddress (fst r) d),
     t ++ [Ev (GetIPAddressByMACAddress mac) r]).
Proof.
  unfold getIP, bind, perform, ret.
  destruct (answer H t (GetIPAddressByMACAddress mac)) as [ip [e|]];
    reflexivity.
Qed.

Lemma RetryAfter_step H {S} n (callback : S -> M (option error * S)) dur s t :
  RetryAfter H (Datatypes.S n) callback dur s t
  = match callback s t with
    | ((None, s'), t') => ((None, s'), t')
    | ((Some e, s'), t') =>
        match n with
        | O => ((Some e, s'), t')
        | Datatypes.S _ =>
            RetryAfter H n callback dur s' (t' ++ [Ev (time_Sleep dur) tt])
        end
    end.
Proof.
  simpl. unfold bind, perform, ret.
  destruct (callback s t) as [[[e|] s'] t']; [|reflexivity].
  destruct n; [reflexivity|].
  destruct (answer H t' (time_Sleep dur)). reflexivity.
Qed.

(** The loop succeeds at the attempt after [j] failed ones. *)
Lemma RetryAfter_succeeds H mac dur ip :
  forall (j n : nat) d t,
    (j < n)%nat ->
    (forall i, (i < j)%nat ->
               snd (answer H (polled H mac dur i t)
                      (GetIPAddressByMACAddress mac)) <> None) ->
    answer H (polled H mac dur j t) (GetIPAddressByMACAddress mac)
    = (ip, None) ->
    exists l,
      RetryAfter H n (getIP H mac) dur d t
      = ((None, set_IPAddress ip d), t ++ l) /\
      count is_lookup l = Datatypes.S j /\
      count is_sleep l = j /\
      count (is_sleep_of dur) l = j.
Proof.
  induction j as [|j IH]; intros n d t Hn Hfail Hok.
  - destruct n as [|n]; [lia|]. cbn [polled] in Hok.
    rewrite RetryAfter_step, getIP_run, Hok. simpl.
    eexists. split; [reflexivity|]. repeat split.
  - destruct n as [|[|n]]; [lia|lia|].
    pose proof (Hfail O ltac:(lia)) as H0. cbn [polled] in H0.
    destruct (answer H t (GetIPAddressByMACAddress mac)) as [ip' [e|]] eqn:E0;
      [clear H0 | exfalso; apply H0; reflexivity].
    set (e1 := Ev (GetIPAddressByMACAddress mac) (ip', Some e)).
    set (e2 := Ev (time_Sleep dur) tt).
    destruct (IH (Datatypes.S n) (set_IPAddress ip' d) (t ++ [e1; e2]))
      as (l & E & C1 & C2 & C3).
    + lia.
    + intros i Hi. pose proof (Hfail (Datatypes.S i) ltac:(lia)) as Hi'.
      cbn [polled] in Hi'. rewrite E0 in Hi'. exact Hi'.
    + cbn [polled] in Hok. rewrite E0 in Hok. exact Hok.
    + exists ([e1; e2] ++ l).
      rewrite RetryAfter_step, getIP_run, E0. cbn [fst snd].
      fold e1 e2. rewrite <- app_assoc. cbn [app].
      rewrite E, set_IPAddress_twice, <- app_assoc.
      split; [reflexivity|].
      rewrite !(count_app _ [e1; e2] l), C1, C2, C3.
      unfold count, is_sleep_of. simpl. rewrite Z.eqb_refl. simpl.
      repeat split; lia.
Qed.

(** When the loop gives up, every attempt of the budget has been made. *)
Lemma RetryAfter_failure_count H mac dur :
  forall (n : nat) d t e d' t',
    (0 < n)%nat ->
    RetryAfter H n (getIP H mac) dur d t = ((Some e, d'), t') ->
    exists l,
      t' = t ++ l /\ count is_lookup l = n /\
      count is_sleep l = (n - 1)%nat.
Proof.
  induction n as [|n IH]; intros d t e d' t' Hn; [lia|].
  rewrite RetryAfter_step, getIP_run. cbv zeta.
  destruct (answer H t (GetIPAddressByMACAddress mac)) as [ip [e0|]];
    cbn [fst snd]; [|discriminate].
  destruct n as [|n].
  - intros E. inversion E; subst. eexists. split; [reflexivity|].
    split; reflexivity.
  - intros E. apply IH in E; [|lia]. destruct E as (l & -> & C1 & C2).
    eexists. rewrite <- !app_assoc. split; [reflexivity|].
    cbn [app]. unfold count in *. simpl. rewrite C1, C2. lia.
Qed.

(** When no lookup of the budget finds a lease, the loop gives up. *)
Lemma RetryAfter_exhausts H mac dur :
  forall (n : nat) d t,
    (forall i, (i < n)%nat ->
               snd (answer H (polled H mac dur i t)
                      (GetIPAddressByMACAddress mac)) <> None) ->
    fst (fst (RetryAfter H n (getIP H mac) dur d t)) <> None.
Proof.
  induction n as [|n IH]; intros d t Hfail; [discriminate|].
  pose proof (Hfail O ltac:(lia)) as H0. cbn [polled] in H0.
  rewrite RetryAfter_step, getIP_run.
  destruct (answer H t (GetIPAddressByMACAddress mac)) as [ip' [e|]] eqn:E0;
    [clear H0 | exfalso; apply H0; reflexivity].
  cbn [fst snd].
  destruct n as [|n]; [discriminate|].
  rewrite <- app_assoc. cbn [app].
  apply IH. intros i Hi. pose proof (Hfail (Datatypes.S i) ltac:(lia)) as Hi'.
  cbn [polled] in Hi'. rewrite E0 in Hi'. exact Hi'.
Qed.

Lemma launch_event_no_poll e :
  launch_event e -> is_lookup e = false /\ is_sleep e = false.
Proof.
  destruct e as [T c r]. unfold launch_event, is_lookup, is_sleep. simpl.
  destruct c; intros []; split; reflexivity.
Qed.

Lemma disk_event_no_poll e :
  disk_event e -> is_lookup e = false /\ is_sleep e = false.
Proof.
  destruct e as [T c r]. unfold disk_event, is_lookup, is_sleep. simpl.
  destruct c; intros []; split; reflexivity.
Qed.

Lemma is_sleep_of_is_sleep dur e : is_sleep e = false -> is_sleep_of dur e = false.
Proof.
  destruct e as [T c r]. unfold is_sleep, is_sleep_of. simpl.
  destruct c; congruence.
Qed.

(** Up to the launch, [Start] neither looks up a lease nor sleeps. *)
Lemma Start_no_poll_before_launch H d d1 t t1 t2 r1 r2 :
  Start_disk H d t = (r1, t1) ->
  Start_launch H d1 t1 = (r2, t2) ->
  count is_lookup t2 = count is_lookup t /\
  count is_sleep t2 = count is_sleep t /\
  forall dur, count (is_sleep_of dur) t2 = count (is_sleep_of dur) t.
Proof.
  intros Hd Hl.
  assert (Hp : forall p,
             (forall e, disk_event e -> p e = false) ->
             (forall e, launch_event e -> p e = false) ->
             count p t2 = count p t).
  { intros p Hpd Hpl.
    pose proof (emits_count p (Start_launch_emits H d1) Hpl t1) as E2.
    pose proof (emits_count p (Start_disk_emits H d) Hpd t) as E1.
    rewrite Hl in E2. rewrite Hd in E1. simpl in *. congruence. }
  split; [|split; [|intros dur]]; apply Hp; intros e He.
  - apply disk_event_no_poll, He.
  - apply launch_event_no_poll, He.
  - apply disk_event_no_poll, He.
  - apply launch_event_no_poll, He.
  - apply is_sleep_of_is_sleep, disk_event_no_poll, He.
  - apply is_sleep_of_is_sleep, launch_event_no_poll, He.
Qed.

(** C3: let the disk and launch phases of [Start] succeed and yield the
    address [mac].  If the first [k-1] lookups of the loop fail and the
    [k]-th answers [ip], with [k] at most 30, then [Start] succeeds with
    [ip] stored as the address of the driver, after exactly [k] lookups
    and [k-1] sleeps, each of 2 seconds.  Whenever [Start] fails in this
    phase it has made exactly 30 lookups and reports that the address was
    never found; and it does fail when none of the 30 lookups finds a
    lease.  The lookups are those of the run itself: the [i]-th is asked
    after [i] failed lookups, each followed by a sleep. *)
Theorem Start_resolves_address (H : Host) (d d1 : Driver)
        (t t1 t2 : history) (mac : string) :
  Start_disk H d t = ((None, d1), t1) ->
  Start_launch H d1 t1 = (inl mac, t2) ->
  let lookup_after (i : nat) :=
    answer H (polled H mac (2 * Second) i t2)
      (GetIPAddressByMACAddress mac) in
  let run := Start H d t in
  (forall (k : nat) (ip : string),
      (1 <= k <= 30)%nat ->
      (forall i, (i < k - 1)%nat -> snd (lookup_after i) <> None) ->
      lookup_after (k - 1)%nat = (ip, None) ->
      fst run = (None, set_IPAddress ip d1) /\
      IPAddress (Base (snd (fst run))) = ip /\
      count is_lookup (snd run) = (count is_lookup t + k)%nat /\
      count is_sleep (snd run) = (count is_sleep t + (k - 1))%nat /\
      count (is_sleep_of (2 * Second)) (snd run)
      = (count (is_sleep_of (2 * Second)%Z) t + (k - 1))%nat) /\
  (fst (fst run) <> None ->
   count is_lookup (snd run) = (count is_lookup t + 30)%nat /\
   exists e, fst (fst run) = Some (Errorf never_found e)) /\
  ((forall i, (i < 30)%nat -> snd (lookup_after i) <> None) ->
   fst (fst run) <> None).
Proof.
  intros Hdisk Hlaunch lookup_after run.
  destruct (Start_no_poll_before_launch H d d1 t Hdisk Hlaunch)
    as (Q1 & Q2 & Q3).
  assert (Hrun : run = Start_resolve H mac d1 t2).
  { subst run. rewrite Start_unfold, Hdisk. unfold bind.
    rewrite Hlaunch. reflexivity. }
  rewrite Hrun. clear Hrun run. unfold Start_resolve, bind.
  split; [|split].
  - intros k ip Hk Hfail Hok.
    destruct (@RetryAfter_succeeds H mac (2 * Second) ip (k - 1)%nat 30%nat
                d1 t2 ltac:(lia) Hfail Hok) as (l & E & C1 & C2 & C3).
    rewrite E. unfold ret. cbn [fst snd].
    rewrite !count_app, C1, C2, C3, Q1, Q2, Q3.
    repeat split; lia.
  - destruct (RetryAfter H 30 (getIP H mac) (2 * Second) d1 t2)
      as [[[e|] d'] t3] eqn:E; unfold ret; cbn [fst snd]; [|congruence].
    intros _. apply RetryAfter_failure_count in E; [|lia].
    destruct E as (l & -> & C1 & _). rewrite count_app, C1, Q1.
    split; [reflexivity | eexists; reflexivity].
  - intros Hfail.
    pose proof (@RetryAfter_exhausts H mac (2 * Second) 30%nat d1 t2 Hfail)
      as Hne.
    destruct (RetryAfter H 30 (getIP H mac) (2 * Second) d1 t2)
      as [[[e|] d'] t3]; simpl in *; congruence.
Qed.

(** The lease of this host appears with time, after the second sleep, not
    with the number of lookups. *)
Lemma Start_resolves_address_witness :
  fst (Start timed minikube [])
  = (None, set_IPAddress "192.168.64.2" minikube) /\
  IPAddress (Base (snd (fst (Start timed minikube [])))) = "192.168.64.2" /\
  count is_lookup (snd (Start timed minikube [])) = 3%nat /\
  count is_sleep (snd (Start timed minikube [])) = 2%nat.
Proof.
  pose proof (@Start_resolves_address timed minikube minikube []
                (snd (Start_disk timed minikube []))
                (snd (Start_launch timed minikube
                        (snd (Start_disk timed minikube []))))
                "e:0:5d:a:b:1" eq_refl eq_refl) as (Hk & _ & _).
  destruct (Hk 3%nat "192.168.64.2") as (R & A & C1 & C2 & _).
  - lia.
  - intros i Hi. destruct i as [|[|i]];
      [vm_compute; discriminate | vm_compute; discriminate | lia].
  - reflexivity.
  - repeat split; assumption.
Defined.

Example Start_gives_up_after_30_lookups :
  let H := fake None alive disk_present no_lease in
  fst (fst (Start H minikube []))
  = Some (Errorf never_found
            (RetriableError (errorString "could not find an IP address"))) /\
  count is_lookup (snd (Start H minikube [])) = 30%nat.
Proof. split; reflexivity. Qed.

(** ** Start: the link-layer address *)

Lemma components_cons s : exists g gs, components s = g :: gs.
Proof.
  induction s as [|c r (g & gs & IH)]; simpl; [eauto|].
  destruct (Ascii.eqb c ":"); [eauto|]. rewrite IH. eauto.
Qed.

Lemma components_no_colon s : Forall (fun g => no_colon g = true) (components s).
Proof.
  induction s as [|c r IH]; simpl; [repeat constructor|].
  destruct (Ascii.eqb c ":") eqn:Ec; [constructor; auto|].
  destruct (components r) as [|g gs]; [repeat constructor; simpl; now rewrite Ec|].
  inversion IH; subst. constructor; [|assumption].
  simpl. rewrite Ec. assumption.
Qed.

Lemma components_group g : no_colon g = true -> components g = [g].
Proof.
  induction g as [|c r IH]; simpl; [reflexivity|].
  intros Hn. apply andb_prop in Hn. destruct Hn as [Hc Hr].
  apply negb_true_iff in Hc. rewrite Hc, (IH Hr). reflexivity.
Qed.

Lemma components_app_colon g r :
  no_colon g = true ->
  components (g ++ String ":" r)%string = g :: components r.
Proof.
  induction g as [|c g IH]; simpl; [reflexivity|].
  intros Hn. apply andb_prop in Hn. destruct Hn as [Hc Hg].
  apply negb_true_iff in Hc. rewrite Hc, (IH Hg). reflexivity.
Qed.

Lemma components_concat g gs :
  Forall (fun g => no_colon g = true) (g :: gs) ->
  components (String.concat ":" (g :: gs)) = g :: gs.
Proof.
  revert g. induction gs as [|g' gs IH]; intros g F; inversion F; subst.
  - simpl. apply components_group. assumption.
  - change (String.concat ":" (g :: g' :: gs))
      with (g ++ String ":" (String.concat ":" (g' :: gs)))%string.
    rewrite components_app_colon by assumption.
    rewrite IH by assumption. reflexivity.
Qed.

Lemma strip_zeros_spec g :
  trimmed (strip_zeros g) = true /\
  (no_colon g = true -> no_colon (strip_zeros g) = true) /\
  exists n, g = (zeros n ++ strip_zeros g)%string.
Proof.
  induction g as [|c r (IH1 & IH2 & n & IH3)].
  - repeat split; try reflexivity. exists O. reflexivity.
  - destruct r as [|c' r'].
    + repeat split; auto. exists O. reflexivity.
    + cbn [strip_zeros]. destruct (Ascii.eqb_spec c "0") as [->|Hc].
      * split; [exact IH1|]. split.
        -- intros Hn. apply IH2. simpl in Hn. exact Hn.
        -- exists (Datatypes.S n). cbn [zeros append]. f_equal. exact IH3.
      * split; [|split; [auto | exists O; reflexivity]].
        simpl. apply negb_true_iff, Ascii.eqb_neq, Hc.
Qed.

Lemma components_trimMacAddress mac :
  components (trimMacAddress mac) = map strip_zeros (components mac).
Proof.
  unfold trimMacAddress.
  pose proof (components_no_colon mac) as F.
  destruct (components_cons mac) as (g & gs & E). rewrite E in *.
  cbn [map]. apply components_concat.
  change (strip_zeros g :: map strip_zeros gs) with (map strip_zeros (g :: gs)).
  apply Forall_map. revert F. apply Forall_impl.
  intros a. apply strip_zeros_spec.
Qed.

Lemma Start_launch_address H d t mac t' :
  Start_launch H d t = (inl mac, t') ->
  GetMACAddressFromUUID H (Start_uuid H d t)
  = (fst (GetMACAddressFromUUID H (Start_uuid H d t)), None) /\
  mac = trimMacAddress (fst (GetMACAddressFromUUID H (Start_uuid H d t))).
Proof.
  unfold Start_launch, Start_uuid, bind, perform, ret.
  destruct (answer H t (hyperkit_New _ _ _)) as [h [e|]]; [discriminate|].
  destruct (GetMACAddressFromUUID H _) as [raw [e|]]; [discriminate|].
  destruct (answer H _ (HyperKit_Start _ _)); [discriminate|].
  intros E. inversion E. split; reflexivity.
Qed.

Example trimMacAddress_groups :
  trimMacAddress "02:00:0a:1f:c0:07" = "2:0:a:1f:c0:7" /\
  trimMacAddress "2:0:a:1f:c0:7" = "2:0:a:1f:c0:7".
Proof. split; reflexivity. Qed.

(** * Further properties of the driver *)

(** ** GetState and getPid *)

Lemma getPid_emits H d : emits probe_event (getPid H d).
Proof. unfold getPid. repeat emits_step. Qed.

(** X1: [GetState] answers one of Stopped, Running and Error; it returns
    an error exactly when the state is Error; and it answers Running only
    for a non-zero pid, after a zero-signal probe that succeeded, which is
    then the last thing it did. *)
Theorem GetState_error_iff_Error (H : Host) (d : Driver) (t : history) :
  let s := fst (fst (GetState H d t)) in
  let err := snd (fst (GetState H d t)) in
  (s = state.Stopped \/ s = state.Running \/ s = state.Error) /\
  (err <> None <-> s = state.Error) /\
  (s = state.Running ->
   fst (getPid H d t) <> 0 /\
   exists l p,
     snd (GetState H d t) = t ++ l ++ [Ev (Process_Signal p 0) None]).
Proof.
  unfold GetState, bind, perform, ret.
  destruct (getPid_emits H d t) as (l & E & _).
  destruct (getPid H d t) as [pid t1]. simpl in E. subst t1.
  destruct (Z.eqb_spec pid 0) as [Hz|Hnz]; cbn [fst snd].
  - split; [auto|]. split; [split; [congruence | discriminate]|]. discriminate.
  - destruct (answer H (t ++ l) (os_FindProcess pid)) as [p|e]; cbn [fst snd].
    + destruct (answer H _ (Process_Signal p 0)) as [e|] eqn:Es; cbn [fst snd].
      * split; [auto|]. split; [split; [congruence | discriminate]|].
        discriminate.
      * split; [auto|]. split; [split; [congruence | discriminate]|].
        intros _. split; [exact Hnz|].
        exists (l ++ [Ev (os_FindProcess pid) (inl p)]), p.
        rewrite <- !app_assoc. reflexivity.
    + split; [auto|]. split; [split; [reflexivity | discriminate]|].
      discriminate.
Qed.

(** X2: [GetState] only observes.  All it does is read the state file,
    log a warning, look a process up and send the zero signal; it sends at
    most one signal, and none that asks the process to do anything. *)
Theorem GetState_only_probes (H : Host) (d : Driver) (t : history) :
  exists l,
    snd (GetState H d t) = t ++ l /\
    Forall probe_event l /\
    (count is_signal l <= 1)%nat /\
    count is_delivery l = 0%nat.
Proof.
  destruct (GetState_emits H d t) as (l & E & F).
  exists l. split; [exact E|]. split; [exact F|]. split.
  - revert E. unfold GetState, bind, perform, ret.
    destruct (getPid_emits H d t) as (l0 & E0 & F0).
    assert (C0 : count is_signal l0 = 0%nat).
    { assert (Hq : count is_signal (snd (getPid H d t)) = count is_signal t).
      { apply getPid_quiet. intros T c r.
        destruct c; simpl; auto; discriminate. }
      rewrite E0, count_app in Hq. lia. }
    destruct (getPid H d t) as [pid t1]. simpl in E0. subst t1.
    destruct (pid =? 0); cbn [snd].
    + intros E. apply app_inv_head in E. subst l. lia.
    + destruct (answer H (t ++ l0) (os_FindProcess pid)) as [p|e]; cbn [snd].
      * destruct (answer H _ (Process_Signal p 0)); cbn [snd];
          rewrite <- !app_assoc; intros E; apply app_inv_head in E; subst l;
          rewrite !count_app, C0; unfold count; simpl; lia.
      * rewrite <- !app_assoc. intros E. apply app_inv_head in E. subst l.
        rewrite !count_app, C0. unfold count. simpl. lia.
  - apply (count_zero_of_Forall is_delivery F). exact probe_event_no_delivery.
Qed.

(** X3: [getPid] returns a non-zero pid only when the state file opened
    and decoded, and then it is the decoded pid and nothing is logged.
    When opening or decoding fails it returns 0 and logs exactly one
    warning.  It never logs otherwise. *)
Theorem getPid_reads_state_file (H : Host) (d : Driver) (t : history) :
  let pidPath := ResolveStorePath H (Base d) machineFileName in
  let opened := answer H t (os_Open pidPath) in
  let decoded :=
    answer H (t ++ [Ev (os_Open pidPath) opened]) (json_Decode pidPath) in
  match opened, decoded with
  | None, inl pid =>
      getPid H d t
      = (pid, t ++ [Ev (os_Open pidPath) None;
                    Ev (json_Decode pidPath) (inl pid)])
  | _, _ =>
      fst (getPid H d t) = 0 /\
      count is_warn (snd (getPid H d t)) = Datatypes.S (count is_warn t)
  end.
Proof.
  intros pidPath opened decoded. subst opened decoded.
  unfold getPid, bind, perform, ret. fold pidPath.
  destruct (answer H t (os_Open pidPath)) as [e|] eqn:Eo.
  - destruct (answer H (t ++ [Ev (os_Open pidPath) (Some e)])
                (log_Warnf "Error reading pid file: %s" [FErr (Some e)])).
    split; [reflexivity|]. cbn [snd]. rewrite !count_snoc. simpl. lia.
  - destruct (answer H _ (json_Decode pidPath)) as [pid|e] eqn:Ed.
    + rewrite <- app_assoc. reflexivity.
    + split; [reflexivity|]. cbn [snd]. rewrite !count_snoc. simpl. lia.
Qed.

(** ** Stop, Remove and Restart *)

Lemma sendSignal_run H d s t :
  exists l0,
    Forall probe_event l0 /\ count is_signal l0 = 0%nat /\
    ((exists pid e,
         sendSignal H d s t
         = (Some e, t ++ l0 ++ [Ev (os_FindProcess pid) (inr e)])) \/
     (exists pid p r,
         sendSignal H d s t
         = (r, t ++ l0 ++ [Ev (os_FindProcess pid) (inl p);
                           Ev (Process_Signal p s) r]))).
Proof.
  destruct (getPid_emits H d t) as (l0 & E0 & F0).
  assert (C0 : count is_signal l0 = 0%nat).
  { assert (Hq : count is_signal (snd (getPid H d t)) = count is_signal t).
    { apply getPid_quiet. intros T c r. destruct c; simpl; auto; discriminate. }
    rewrite E0, count_app in Hq. lia. }
  exists l0. split; [exact F0|]. split; [exact C0|].
  unfold sendSignal, bind, perform, ret.
  destruct (getPid H d t) as [pid t1]. simpl in E0. subst t1.
  destruct (answer H (t ++ l0) (os_FindProcess pid)) as [p|e].
  - right. exists pid, p, (answer H ((t ++ l0) ++ [Ev (os_FindProcess pid) (inl p)])
                             (Process_Signal p s)).
    rewrite <- !app_assoc. reflexivity.
  - left. exists pid, e. rewrite <- !app_assoc. reflexivity.
Qed.

Lemma probe_is_remove_event e : probe_event e -> remove_event e.
Proof.
  destruct e as [T c r]. unfold probe_event, remove_event. simpl.
  destruct c; auto.
Qed.

Lemma probe_event_not_SIGTERM e :
  probe_event e -> is_SIGTERM_delivered e = false.
Proof.
  destruct e as [T c r]. unfold probe_event. simpl.
  destruct c; try (intros []; fail); try reflexivity.
  intros ->. reflexivity.
Qed.

Lemma probe_event_not_started e :
  probe_event e -> ~ (disk_event e \/ boot_event e).
Proof.
  destruct e as [T c r]. unfold probe_event, disk_event, boot_event. simpl.
  destruct c; intros Hp [Hd|Hb]; assumption.
Qed.

Lemma Start_emits H d : emits (fun e => disk_event e \/ boot_event e) (Start H d).
Proof.
  unfold Start. apply emits_bind.
  - apply emits_weaken with (P := disk_event); [auto | apply Start_disk_emits].
  - intros [[e|] d1]; [apply emits_ret|].
    apply emits_weaken with (P := boot_event);
      [auto | apply Start_after_disk_emits].
Qed.

Lemma Stop_emits H d : emits remove_event (Stop H d).
Proof.
  unfold Stop, sendSignal, getPid.
  repeat (emits_step || (apply emits_perform; intros; right; reflexivity)).
Qed.

Lemma Remove_emits H d : emits remove_event (Remove H d).
Proof.
  unfold Remove. apply emits_bind.
  - apply emits_weaken with (P := probe_event);
      [exact probe_is_remove_event | apply GetState_emits].
  - intros [s err]. apply emits_bind.
    + destruct (_ || _); repeat emits_step.
    + intros _. destruct (state.eqb s state.Running); [|apply emits_ret].
      apply emits_bind; [apply Stop_emits|].
      intros [e|]; apply emits_ret.
Qed.

Lemma sendSignal_delivers_once H d s t :
  (count is_delivery (snd (sendSignal H d s t))
   <= Datatypes.S (count is_delivery t))%nat.
Proof.
  destruct (sendSignal_run H d s t)
    as (l0 & F0 & _ & [(pid & e & E)|(pid & p & r & E)]); rewrite E;
    cbn [snd]; rewrite !count_app,
      (count_zero_of_Forall is_delivery F0 probe_event_no_delivery);
    unfold count, is_delivery; simpl; [lia|].
  destruct (negb (s =? 0)); simpl; lia.
Qed.

(** X4: [Remove] only probes, logs and, at most once, sends SIGTERM.  It
    never sends SIGKILL, and it touches neither the disk image nor
    hyperkit. *)
Theorem Remove_sends_only_SIGTERM (H : Host) (d : Driver) (t : history) :
  exists l,
    snd (Remove H d t) = t ++ l /\
    Forall remove_event l /\
    (count is_delivery l <= 1)%nat.
Proof.
  destruct (Remove_emits H d t) as (l & E & F).
  exists l. split; [exact E|]. split; [exact F|].
  assert (Hc : (count is_delivery (snd (Remove H d t))
                <= Datatypes.S (count is_delivery t))%nat).
  { clear E F l. unfold Remove, bind.
    pose proof (emits_count is_delivery (GetState_emits H d)
                  probe_event_no_delivery t) as Hq.
    destruct (GetState H d t) as [[s err] t1]. simpl in Hq.
    match goal with
    | |- context [(if ?b then ?x else ?y) t1] =>
        set (logged := if b then x else y)
    end.
    assert (Hl : count is_delivery (snd (logged t1)) = count is_delivery t1).
    { subst logged. destruct (_ || _); [|reflexivity].
      unfold perform. cbn [snd]. rewrite count_snoc. simpl. lia. }
    destruct (logged t1) as [[] t2]. simpl in Hl.
    destruct (state.eqb s state.Running); [|cbn [snd ret]; lia].
    pose proof (sendSignal_delivers_once H d SIGTERM t2) as Hs.
    unfold Stop. destruct (sendSignal H d SIGTERM t2) as [[e|] t3];
      cbn [snd ret] in *; lia. }
  rewrite E, count_app in Hc. lia.
Qed.

(** X5: [Restart] is [Stop] followed by [Start], with no [Start] when
    [Stop] fails: the error of [Stop] is returned as it is, the driver is
    untouched and nothing is done after [Stop].  In every case [Restart]
    changes no field of the driver but the address and the key path. *)
Theorem Restart_aborts_when_Stop_fails (H : Host) (d : Driver) (t : history) :
  (forall e, fst (Stop H d t) = Some e ->
             Restart H d t = ((Some e, d), snd (Stop H d t))) /\
  (fst (Stop H d t) = None -> Restart H d t = Start H d (snd (Stop H d t))) /\
  only_address_and_key_differ d (snd (fst (Restart H d t))).
Proof.
  unfold Restart, bind. destruct (Stop H d t) as [[e|] t1]; cbn [fst snd].
  - split; [intros e' E; inversion E; reflexivity|].
    split; [discriminate | apply frame_refl].
  - split; [discriminate|]. split; [reflexivity | apply Start_frame].
Qed.

Lemma Restart_aborts_when_Stop_fails_witness :
  let H := fake (Some 4242) no_such_process disk_absent (lease_at 1) in
  Restart H minikube []
  = ((Some (Errno ESRCH), minikube), snd (Stop H minikube [])).
Proof.
  intros H.
  apply (Restart_aborts_when_Stop_fails H minikube []). reflexivity.
Defined.

(** X6: [Restart] gets to the disk image or to hyperkit only after a
    SIGTERM that was delivered without an error: a machine that cannot be
    signalled, because it is not running or for any other reason, is not
    started again. *)
Theorem Restart_starts_only_after_SIGTERM (H : Host) (d : Driver)
        (t : history) :
  exists l,
    snd (Restart H d t) = t ++ l /\
    (Exists (fun e => disk_event e \/ boot_event e) l ->
     count is_SIGTERM_delivered l = 1%nat).
Proof.
  unfold Restart, bind, Stop.
  assert (Hno : forall l0, Forall probe_event l0 ->
                  ~ Exists (fun e => disk_event e \/ boot_event e) l0).
  { intros l0 F0 Hex. apply Exists_exists in Hex. destruct Hex as (e & Hin & He).
    rewrite Forall_forall in F0.
    exact (@probe_event_not_started e (F0 e Hin) He). }
  destruct (sendSignal_run H d SIGTERM t)
    as (l0 & F0 & _ & [(pid & e & E)|(pid & p & r & E)]); rewrite E.
  - eexists. cbn [snd ret]. split; [reflexivity|].
    intros Hex. exfalso. apply (Hno (l0 ++ [Ev (os_FindProcess pid) (inr e)]));
      [|exact Hex].
    apply Forall_app. split; [exact F0 | repeat constructor].
  - destruct r as [e|].
    + eexists. cbn [snd ret]. split; [reflexivity|].
      intros Hex. exfalso. apply Exists_app in Hex. destruct Hex as [Hex|Hex].
      * exact (Hno l0 F0 Hex).
      * repeat (apply Exists_cons in Hex;
                destruct Hex as [[Hc|Hc]|Hex]; [exact Hc | exact Hc |]).
        apply Exists_nil in Hex. exact Hex.
    + set (t1 := t ++ l0 ++ _).
      destruct (Start_emits H d t1) as (l2 & E2 & F2).
      exists (l0 ++ [Ev (os_FindProcess pid) (inl p);
                     Ev (Process_Signal p SIGTERM) None] ++ l2).
      rewrite E2. subst t1. rewrite <- !app_assoc. split; [reflexivity|].
      intros _. rewrite !count_app.
      rewrite (count_zero_of_Forall is_SIGTERM_delivered F0
                 probe_event_not_SIGTERM).
      rewrite (count_zero_of_Forall is_SIGTERM_delivered F2).
      * reflexivity.
      * intros [T c a]. unfold disk_event, boot_event. simpl.
        destruct c; intros [[]|[]]; reflexivity.
Qed.

(** ** Start *)

Lemma Start_resolve_polls H mac d :
  emits (fun e => match ev_call e with
                  | GetIPAddressByMACAddress m => m = mac
                  | time_Sleep _ => True
                  | _ => False
                  end)
        (Start_resolve H mac d).
Proof.
  unfold Start_resolve. apply emits_bind.
  - apply RetryAfter_emits; [|intros; exact I].
    intros s. unfold getIP.
    repeat (emits_step || (apply emits_perform; intros; reflexivity)).
  - intros [[e|] d']; apply emits_ret.
Qed.

Lemma Forall_step_ok (P : event -> Prop) l :
  Forall P l -> (forall e, P e -> step_error e = None) ->
  Forall (fun e => step_error e = None) l.
Proof. intros F HP. revert F. apply Forall_impl. exact HP. Qed.

Lemma disk_phase_steps H d t :
  exists l,
    snd (Start_disk H d t) = t ++ l /\
    Forall disk_event l /\
    l <> [] /\
    (os_IsNotExist (answer H t (os_Stat (diskPath H d))) = false ->
     fst (fst (Start_disk H d t)) = None /\
     l = [Ev (os_Stat (diskPath H d)) (answer H t (os_Stat (diskPath H d)))])
    /\
    (snd (fst (Start_disk H d t))
     = if os_IsNotExist (answer H t (os_Stat (diskPath H d)))
       then with_key_path H d else d) /\
    (exists path, snd (fst (Start_disk H d t)) = set_SSHKeyPath path d) /\
    match fst (fst (Start_disk H d t)) with
    | None => Forall (fun e => step_error e = None) l
    | Some e =>
        exists l0 ev,
          l = l0 ++ [ev] /\ Forall (fun e => step_error e = None) l0 /\
          step_error ev = Some e
    end.
Proof.
  assert (Hk : forall b : bool,
             exists path,
               (if b then with_key_path H d else d) = set_SSHKeyPath path d).
  { intros [|].
    - destruct (with_key_path_frame H d) as (E & _). eexists. exact E.
    - exists (SSHKeyPath (Base d)). destruct d as [[] ]. reflexivity. }
  rewrite Start_disk_driver. rewrite Start_disk_run. cbv zeta.
  destruct (os_IsNotExist _) eqn:Eg; cbn [fst snd].
  - destruct (answer H _ (createDiskImage _ _ _)) as [e|] eqn:Ec; cbn [fst snd].
    + eexists. split; [rewrite <- !app_assoc; reflexivity|].
      split; [repeat constructor|]. split; [discriminate|].
      split; [discriminate|]. split; [reflexivity|].
      split; [apply (Hk true)|].
      eexists [_], _. split; [reflexivity|]. split; [|reflexivity].
      repeat constructor.
    + destruct (answer H _ (fixPermissions _)) as [e|] eqn:Ef; cbn [fst snd].
      * eexists. split; [rewrite <- !app_assoc; reflexivity|].
        split; [repeat constructor|]. split; [discriminate|].
        split; [discriminate|]. split; [reflexivity|].
        split; [apply (Hk true)|].
        eexists [_; _], _. split; [reflexivity|]. split; [|reflexivity].
        repeat constructor.
      * eexists. split; [rewrite <- !app_assoc; reflexivity|].
        split; [repeat constructor|]. split; [discriminate|].
        split; [discriminate|]. split; [reflexivity|].
        split; [apply (Hk true)|].
        repeat constructor.
  - eexists. split; [reflexivity|]. split; [repeat constructor|].
    split; [discriminate|].
    split; [intros _; split; reflexivity|]. split; [reflexivity|].
    split; [apply (Hk false)|]. repeat constructor.
Qed.

Lemma launch_phase_steps H d t :
  exists l,
    snd (Start_launch H d t) = t ++ l /\
    Forall launch_event l /\
    (exists r l',
        l = Ev (hyperkit_New EmptyString EmptyString
                  (filepath_Join H
                     [StorePath (Base d); "machines"; MachineName (Base d)]))
               r :: l') /\
    (count is_launch l <= 1)%nat /\
    Forall (identity_event H (Start_uuid H d t)) l /\
    Forall (launches_with (fun h cmdline =>
              cmdline = Cmdline d /\
              Kernel h = ResolveStorePath H (Base d) "bzimage" /\
              Initrd h = ResolveStorePath H (Base d) "initrd" /\
              VMNet h = true /\
              ISOImage h = ResolveStorePath H (Base d) isoFilename /\
              HConsole h = ConsoleFile /\
              CPUs h = CPU d /\
              HMemory h = Memory d /\
              Disks h = [ {| DiskPath := diskPath H d;
                             DiskConfigSize := DiskSize d;
                             DiskDriver := "virtio-blk" |} ])) l /\
    match fst (Start_launch H d t) with
    | inl mac =>
        Forall (fun e => step_error e = None) l /\
        mac = trimMacAddress
                (fst (GetMACAddressFromUUID H (Start_uuid H d t))) /\
        count is_launch l = 1%nat
    | inr e =>
        (Forall (fun e => step_error e = None) l /\ count is_launch l = 0%nat)
        \/
        exists l0 ev,
          l = l0 ++ [ev] /\ Forall (fun e => step_error e = None) l0 /\
          step_error ev = Some e
    end.
Proof.
  destruct (Start_launch_emits H d t) as (l & E & F).
  exists l. split; [exact E|]. split; [exact F|]. clear F. revert E.
  unfold Start_launch, Start_uuid, bind, perform, ret.
  destruct (answer H t (hyperkit_New _ _ _)) as [h [e|]] eqn:En; cbn [fst snd].
  - intros E. apply app_inv_head in E. subst l.
    split; [eexists _, _; reflexivity|].
    split; [unfold count; simpl; lia|]. split; [repeat constructor|].
    split; [repeat constructor|].
    right. eexists [], _.
    split; [reflexivity|]. split; [constructor | reflexivity].
  - set (uuid := answer H _ uuid_NewUUID).
    destruct (GetMACAddressFromUUID H uuid) as [raw [e|]]; cbn [fst snd].
    + rewrite <- !app_assoc. intros E. apply app_inv_head in E. subst l.
      split; [eexists _, _; reflexivity|].
      split; [unfold count; simpl; lia|].
      split; [repeat constructor|]. split; [repeat constructor|].
      left. split; [repeat constructor | reflexivity].
    + destruct (answer H _ (HyperKit_Start _ _)) as [e|] eqn:Es;
        cbn [fst snd]; rewrite <- !app_assoc; intros E;
        apply app_inv_head in E; subst l.
      * split; [eexists _, _; reflexivity|].
        split; [unfold count; simpl; lia|].
        split; [repeat constructor|].
        split; [repeat constructor; simpl; repeat split|].
        right. eexists [_; _; _; _; _], _.
        split; [reflexivity|]. split; [repeat constructor | reflexivity].
      * split; [eexists _, _; reflexivity|].
        split; [unfold count; simpl; lia|].
        split; [repeat constructor|].
        split; [repeat constructor; simpl; repeat split|].
        split; [repeat constructor|]. split; reflexivity.
Qed.

(** The three ways through [Start]: the disk phase fails; the launch phase
    succeeds and the address is resolved; the launch phase fails. *)
Ltac start_cases H d t :=
  rewrite ?Start_unfold;
  let ld := fresh "ld" in let Ed := fresh "Ed" in let Fd := fresh "Fd" in
  let Gd := fresh "Gd" in let Sd := fresh "Sd" in
  let Dd := fresh "Dd" in let Kd := fresh "Kd" in
  let key := fresh "key" in let d1 := fresh "d1" in
  let ll := fresh "ll" in let El := fresh "El" in let Fl := fresh "Fl" in
  let Nl := fresh "Nl" in let Cl := fresh "Cl" in let Il := fresh "Il" in
  let Kl := fresh "Kl" in let Sl := fresh "Sl" in
  let lr := fresh "lr" in let Er := fresh "Er" in let Fr := fresh "Fr" in
  let e := fresh "e" in let mac := fresh "mac" in
  let t1 := fresh "t1" in let t2 := fresh "t2" in
  let Nd := fresh "Nd" in
  destruct (disk_phase_steps H d t)
    as (ld & Ed & Fd & Nd & Gd & Dd & (key & Kd) & Sd);
  destruct (Start_disk H d t) as [[[e|] d1] t1];
  cbn [fst snd] in Ed, Gd, Dd, Kd, Sd; subst t1; rewrite Kd in Dd;
  subst d1;
  [ | unfold bind;
      destruct (launch_phase_steps H (set_SSHKeyPath key d) (t ++ ld))
        as (ll & El & Fl & Nl & Cl & Il & Kl & Sl);
      cbn [set_SSHKeyPath Base Cmdline CPU Memory DiskSize StorePath
           MachineName] in Nl, Kl;
      let Elaunch := fresh "Elaunch" in
      destruct (Start_launch H (set_SSHKeyPath key d) (t ++ ld))
        as [[mac|e] t2] eqn:Elaunch;
      cbn [fst snd] in El, Sl; subst t2;
      [ destruct (Start_resolve_polls H mac (set_SSHKeyPath key d)
                    ((t ++ ld) ++ ll))
          as (lr & Er & Fr) | ] ].

Lemma poll_of_step_ok mac e :
  match ev_call e with
  | GetIPAddressByMACAddress m => m = mac
  | time_Sleep _ => True
  | _ => False
  end -> step_error e = None /\ is_launch e = false /\
         launches_with (fun _ _ => False) e.
Proof.
  destruct e as [T c r]. unfold launches_with, is_launch. simpl.
  destruct c; intros Hc; try contradiction; repeat split.
Qed.

Lemma disk_event_facts e :
  disk_event e -> is_launch e = false /\ launches_with (fun _ _ => False) e /\
                  forall H uuid, identity_event H uuid e.
Proof.
  destruct e as [T c r]. unfold disk_event, launches_with, is_launch. simpl.
  destruct c; intros Hc; try contradiction; repeat split.
Qed.

Lemma launches_with_impl (P Q : HyperKit -> string -> Prop) e :
  (forall h c, P h c -> Q h c) -> launches_with P e -> launches_with Q e.
Proof.
  destruct e as [T c r]. unfold launches_with. simpl.
  destruct c; auto.
Qed.

(** X7: [Start] stops at the first step that fails.  If creating the disk
    image, fixing its permissions, [hyperkit.New] or starting hyperkit
    answers an error, that step is the last thing [Start] does and [Start]
    returns that very error.  The driver is then as the disk phase left
    it: the driver [Start] was called on, address included, with the key
    path asked for if the disk image was reported missing. *)
Theorem Start_stops_at_first_failure (H : Host) (d : Driver) (t : history) :
  exists l,
    snd (Start H d t) = t ++ l /\
    (Forall (fun e => step_error e = None) l \/
     exists l0 ev e,
       l = l0 ++ [ev] /\
       Forall (fun e => step_error e = None) l0 /\
       step_error ev = Some e /\
       fst (fst (Start H d t)) = Some e /\
       snd (fst (Start H d t))
       = (if os_IsNotExist (answer H t (os_Stat (diskPath H d)))
          then with_key_path H d else d) /\
       IPAddress (Base (snd (fst (Start H d t)))) = IPAddress (Base d)).
Proof.
  start_cases H d t.
  - destruct Sd as (l0 & ev & -> & F0 & Sev).
    eexists. cbn [fst snd ret]. split; [reflexivity|].
    right. exists l0, ev, e. rewrite <- Dd. repeat split; assumption.
  - rewrite Er. exists (ld ++ ll ++ lr). rewrite <- !app_assoc.
    split; [reflexivity|]. left. destruct Sl as (Fok & _ & _).
    repeat (apply Forall_app; split); try assumption.
    revert Fr. apply Forall_impl. intros a Ha.
    apply (poll_of_step_ok mac a Ha).
  - cbn [fst snd ret]. exists (ld ++ ll). rewrite <- app_assoc.
    split; [reflexivity|].
    destruct Sl as [[Fok _]|(l0 & ev & -> & F0 & Sev)].
    + left. apply Forall_app. auto.
    + right. exists (ld ++ l0), ev, e. rewrite <- app_assoc, <- Dd.
      split; [reflexivity|]. split; [apply Forall_app; auto|].
      repeat split; assumption.
Qed.

Lemma Start_launches H d t :
  exists l,
    snd (Start H d t) = t ++ l /\
    Forall (launches_with (fun h cmdline =>
              cmdline = Cmdline d /\
              Kernel h = ResolveStorePath H (Base d) "bzimage" /\
              Initrd h = ResolveStorePath H (Base d) "initrd" /\
              VMNet h = true /\
              ISOImage h = ResolveStorePath H (Base d) isoFilename /\
              HConsole h = ConsoleFile /\
              CPUs h = CPU d /\
              HMemory h = Memory d /\
              Disks h = [ {| DiskPath := diskPath H d;
                             DiskConfigSize := DiskSize d;
                             DiskDriver := "virtio-blk" |} ])) l.
Proof.
  assert (Hd : forall l P, Forall disk_event l -> Forall (launches_with P) l).
  { intros l P. apply Forall_impl. intros a Ha.
    apply launches_with_impl with (P := fun _ _ => False);
      [contradiction | apply (disk_event_facts a Ha)]. }
  start_cases H d t.
  - eexists. cbn [fst snd ret]. split; [reflexivity|]. apply Hd. exact Fd.
  - rewrite Er. exists (ld ++ ll ++ lr). rewrite <- !app_assoc.
    split; [reflexivity|].
    repeat (apply Forall_app; split); try assumption.
    + apply Hd. exact Fd.
    + revert Fr. apply Forall_impl. intros a Ha.
      apply launches_with_impl with (P := fun _ _ => False);
        [contradiction | apply (poll_of_step_ok mac a Ha)].
  - cbn [fst snd ret]. exists (ld ++ ll). rewrite <- app_assoc.
    split; [reflexivity|].
    apply Forall_app. split; [apply Hd; exact Fd | exact Kl].
Qed.

(** X8: [Start] starts hyperkit at most once, and when it does, with the
    command line of the driver and a configuration that takes kernel,
    initrd and ISO from the machine directory, the CPU count and memory
    size from the driver, networking on, a file console, and one
    virtio-blk disk at the disk image path with the configured size. *)
Theorem Start_launch_configuration (H : Host) (d : Driver) (t : history) :
  exists l,
    snd (Start H d t) = t ++ l /\
    (count is_launch l <= 1)%nat /\
    Forall (launches_with (fun h cmdline =>
              cmdline = Cmdline d /\
              Kernel h = ResolveStorePath H (Base d) "bzimage" /\
              Initrd h = ResolveStorePath H (Base d) "initrd" /\
              VMNet h = true /\
              ISOImage h = ResolveStorePath H (Base d) isoFilename /\
              HConsole h = ConsoleFile /\
              CPUs h = CPU d /\
              HMemory h = Memory d /\
              Disks h = [ {| DiskPath := diskPath H d;
                             DiskConfigSize := DiskSize d;
                             DiskDriver := "virtio-blk" |} ])) l.
Proof.
  destruct (Start_launches H d t) as (l & E & F).
  exists l. split; [exact E|]. split; [|exact F].
  assert (Hc : (count is_launch (snd (Start H d t))
                <= count is_launch t + 1)%nat).
  { clear E F l.
    assert (Hd : forall l, Forall disk_event l -> count is_launch l = 0%nat).
    { intros l F. apply (count_zero_of_Forall is_launch F).
      intros a Ha. apply (disk_event_facts a Ha). }
    start_cases H d t.
    - cbn [fst snd ret]. rewrite count_app, (Hd ld Fd). lia.
    - rewrite Er, !count_app, (Hd ld Fd).
      rewrite (count_zero_of_Forall is_launch Fr);
        [lia | intros a Ha; apply (poll_of_step_ok mac a Ha)].
    - cbn [fst snd ret]. rewrite !count_app, (Hd ld Fd). lia. }
  rewrite E, count_app in Hc. lia.
Qed.

Lemma launch_phase_uuid H d t r l :
  Start_launch H d t = (r, t ++ l) ->
  (count is_uuid l <= 1)%nat /\
  (Exists (fun e => is_launch e = true) l \/ (exists mac, r = inl mac) ->
   In (Ev uuid_NewUUID (Start_uuid H d t)) l).
Proof.
  unfold Start_launch, Start_uuid, bind, perform, ret.
  destruct (answer H t (hyperkit_New _ _ _)) as [h [e|]] eqn:En.
  - intros E. inversion E as [[Er El]]. apply app_inv_head in El. subst l r.
    split; [unfold count; simpl; lia|].
    intros [Hex|(mac & Hm)]; [|discriminate].
    apply Exists_cons in Hex. destruct Hex as [Hc|Hex]; [discriminate Hc|].
    apply Exists_nil in Hex. contradiction.
  - set (uuid := answer H _ uuid_NewUUID).
    destruct (GetMACAddressFromUUID H uuid) as [raw [e|]].
    + rewrite <- !app_assoc. intros E. inversion E as [[Er El]].
      apply app_inv_head in El. subst l r.
      split; [unfold count; simpl; lia|]. intros _. simpl. auto.
    + destruct (answer H _ (HyperKit_Start _ _)) as [e|];
        rewrite <- !app_assoc; intros E; inversion E as [[Er El]];
        apply app_inv_head in El; subst l r;
        (split; [unfold count; simpl; lia|]); intros _; simpl; auto.
Qed.

(** X9: one identifier runs through a [Start].  [uuid.NewUUID] is asked
    at most once; what it answered is the identifier in the configuration
    hyperkit is started with, and every lease lookup is keyed by the
    normalized address that the convention derives from it; and hyperkit
    is not started, nor a lease looked up, without the identifier having
    been generated in that [Start]. *)
Theorem Start_uses_one_identifier (H : Host) (d : Driver) (t : history) :
  exists l,
    snd (Start H d t) = t ++ l /\
    (count is_uuid l <= 1)%nat /\
    (forall uuid, In (Ev uuid_NewUUID uuid) l ->
                  Forall (identity_event H uuid) l) /\
    (Exists (fun e => is_launch e = true \/ is_lookup e = true) l ->
     exists uuid, In (Ev uuid_NewUUID uuid) l).
Proof.
  assert (Hone : forall l u0,
             Forall (identity_event H u0) l ->
             forall uuid, In (Ev uuid_NewUUID uuid) l ->
                          Forall (identity_event H uuid) l).
  { intros l u0 F uuid Hin. pose proof F as F'.
    rewrite Forall_forall in F'. specialize (F' _ Hin). simpl in F'.
    subst u0. exact F. }
  assert (Hdisk : forall l, Forall disk_event l ->
             count is_uuid l = 0%nat /\
             (forall u, Forall (identity_event H u) l) /\
             ~ Exists (fun e => is_launch e = true \/ is_lookup e = true) l).
  { intros l F. split; [|split].
    - apply (count_zero_of_Forall is_uuid F).
      intros [T c r]. unfold disk_event. simpl.
      destruct c; intros []; reflexivity.
    - intros u. revert F. apply Forall_impl. intros a Ha.
      apply (disk_event_facts a Ha).
    - intros Hex. apply Exists_exists in Hex. destruct Hex as (a & Hin & Ha).
      rewrite Forall_forall in F. specialize (F a Hin).
      destruct a as [T c r]. unfold disk_event in F. simpl in F.
      destruct c; try contradiction; destruct Ha as [Ha|Ha]; discriminate Ha. }
  assert (Hpoll : forall mac l,
             Forall (fun e => match ev_call e with
                              | GetIPAddressByMACAddress m => m = mac
                              | time_Sleep _ => True
                              | _ => False
                              end) l ->
             count is_uuid l = 0%nat).
  { intros mac l F. apply (count_zero_of_Forall is_uuid F).
    intros [T c r]. simpl. destruct c; intros Hc; try contradiction;
      reflexivity. }
  start_cases H d t.
  - exists ld. cbn [fst snd ret]. split; [reflexivity|].
    destruct (Hdisk ld Fd) as (C & I & N).
    split; [lia|]. split; [intros uuid _; apply I|].
    intros Hex. contradiction.
  - rewrite Er. exists (ld ++ ll ++ lr). rewrite <- !app_assoc.
    split; [reflexivity|].
    destruct (Hdisk ld Fd) as (C & I & _).
    destruct (@launch_phase_uuid _ _ _ _ _ Elaunch) as (Cu & Hin).
    rewrite !count_app, C, (Hpoll mac lr Fr).
    split; [lia|].
    assert (F0 : Forall (identity_event H
                           (Start_uuid H (set_SSHKeyPath key d) (t ++ ld)))
                        (ld ++ ll ++ lr)).
    { repeat (apply Forall_app; split); [apply I | exact Il |].
      destruct Sl as (_ & Hmac & _). revert Fr. apply Forall_impl.
      intros [T c r]. simpl. destruct c; try contradiction; [|auto].
      intros ->. exact Hmac. }
    split; [exact (Hone _ _ F0)|].
    intros _. eexists. apply in_or_app. right. apply in_or_app. left.
    apply Hin. right. eexists. reflexivity.
  - cbn [fst snd ret]. exists (ld ++ ll). rewrite <- app_assoc.
    split; [reflexivity|].
    destruct (Hdisk ld Fd) as (C & I & N).
    destruct (@launch_phase_uuid _ _ _ _ _ Elaunch) as (Cu & Hin).
    rewrite !count_app, C. split; [lia|].
    assert (F0 : Forall (identity_event H
                           (Start_uuid H (set_SSHKeyPath key d) (t ++ ld)))
                        (ld ++ ll)).
    { apply Forall_app. split; [apply I | exact Il]. }
    split; [exact (Hone _ _ F0)|].
    intros Hex. apply Exists_app in Hex. destruct Hex as [Hex|Hex];
      [contradiction|].
    eexists. apply in_or_app. right. apply Hin. left.
    apply Exists_exists in Hex. destruct Hex as (a & Ha & [Hl|Hl]).
    + apply Exists_exists. exists a. auto.
    + exfalso. rewrite Forall_forall in Fl. specialize (Fl a Ha).
      destruct a as [T c r]. unfold launch_event in Fl. simpl in Fl.
      destruct c; try contradiction; discriminate Hl.
Qed.

(** X10: [Start] never reads the state file and never looks up or signals
    a process: it does not find out whether the machine is already
    running. *)
Theorem Start_never_probes (H : Host) (d : Driver) (t : history) :
  count is_process_call (snd (Start H d t)) = count is_process_call t.
Proof.
  apply (emits_count is_process_call (Start_emits H d)).
  intros [T c r]. unfold disk_event, boot_event, is_process_call. simpl.
  destruct c; intros [[]|[]]; reflexivity.
Qed.

(** X12: an error of [os.Stat] on the disk image other than "does not
    exist" is not reported: [Start] creates nothing and goes on to
    [hyperkit.New]. *)
Theorem Start_ignores_other_stat_errors (H : Host) (d : Driver) (t : history)
        (e : error) :
  answer H t (os_Stat (diskPath H d)) = Some e ->
  os_IsNotExist (Some e) = false ->
  exists r l,
    snd (Start H d t)
    = t ++ Ev (os_Stat (diskPath H d)) (Some e)
        :: Ev (hyperkit_New EmptyString EmptyString
                 (filepath_Join H
                    [StorePath (Base d); "machines"; MachineName (Base d)]))
              r
        :: l.
Proof.
  intros Hs Hg. rewrite <- Hs in Hg.
  start_cases H d t; destruct (Gd Hg) as [Hn Hl]; try discriminate Hn;
    subst ld; destruct Nl as (r & l' & ->).
  - rewrite Er, Hs. exists r, (l' ++ lr). rewrite <- !app_assoc. reflexivity.
  - cbn [fst snd ret]. rewrite Hs. exists r, l'. rewrite <- !app_assoc.
    reflexivity.
Qed.

Lemma Start_ignores_other_stat_errors_witness :
  let H := fake None alive (Some (PathError "stat" "minikube.rawdisk"
                                    (Errno 13))) (lease_at 1) in
  exists r l,
    snd (Start H minikube [])
    = [] ++ Ev (os_Stat (diskPath H minikube))
              (Some (PathError "stat" "minikube.rawdisk" (Errno 13)))
        :: Ev (hyperkit_New EmptyString EmptyString
                 (filepath_Join H
                    [StorePath (Base minikube); "machines";
                     MachineName (Base minikube)])) r
        :: l.
Proof.
  intros H.
  apply (@Start_ignores_other_stat_errors H minikube []
           (PathError "stat" "minikube.rawdisk" (Errno 13)));
    reflexivity.
Defined.

Lemma last_lookup_app l1 l2 :
  last_lookup (l1 ++ l2)
  = match last_lookup l2 with
    | Some r => Some r
    | None => last_lookup l1
    end.
Proof.
  induction l1 as [|e l1 IH]; simpl.
  - destruct (last_lookup l2); reflexivity.
  - rewrite IH. destruct (last_lookup l2); reflexivity.
Qed.

Lemma last_lookup_none (P : event -> Prop) l :
  Forall P l -> (forall e, P e -> lookup_answer e = None) ->
  last_lookup l = None.
Proof.
  intros F HP. induction F as [|e l He _ IH]; simpl; [reflexivity|].
  rewrite IH. apply HP, He.
Qed.

Lemma RetryAfter_last_lookup H mac dur :
  forall (n : nat) d t,
    (0 < n)%nat ->
    exists l r ip err,
      RetryAfter H n (getIP H mac) dur d t = ((r, set_IPAddress ip d), t ++ l)
      /\ last_lookup l = Some (ip, err)
      /\ (r = None <-> err = None).
Proof.
  induction n as [|n IH]; intros d t Hn; [lia|].
  rewrite RetryAfter_step, getIP_run. cbv zeta.
  destruct (answer H t (GetIPAddressByMACAddress mac)) as [ip [e|]];
    cbn [fst snd].
  - destruct n as [|n].
    + eexists [_], _, ip, (Some e). split; [reflexivity|].
      split; [reflexivity|]. split; discriminate.
    + destruct (IH (set_IPAddress ip d)
                  ((t ++ [Ev (GetIPAddressByMACAddress mac) (ip, Some e)])
                     ++ [Ev (time_Sleep dur) tt]) ltac:(lia))
        as (l & r & ip' & err' & E & L & R).
      exists ([Ev (GetIPAddressByMACAddress mac) (ip, Some e);
               Ev (time_Sleep dur) tt] ++ l), r, ip', err'.
      rewrite E, set_IPAddress_twice, <- !app_assoc.
      split; [reflexivity|]. split; [|exact R].
      rewrite last_lookup_app, L. reflexivity.
  - eexists [_], _, ip, None. split; [reflexivity|].
    split; [reflexivity|]. split; reflexivity.
Qed.

(** X11: the address on the driver after [Start] is what the last lease
    lookup of that [Start] returned, whether the lookup succeeded or not,
    and [Start] succeeds exactly when that lookup did; [GetSSHHostname]
    then returns that address.  A [Start] that made no lookup has failed
    and has left the address as it was. *)
Theorem Start_address_is_last_lookup (H : Host) (d : Driver) (t : history) :
  exists l,
    snd (Start H d t) = t ++ l /\
    match last_lookup l with
    | None =>
        IPAddress (Base (snd (fst (Start H d t)))) = IPAddress (Base d) /\
        fst (fst (Start H d t)) <> None
    | Some (ip, err) =>
        IPAddress (Base (snd (fst (Start H d t)))) = ip /\
        (fst (fst (Start H d t)) = None <-> err = None) /\
        GetSSHHostname (snd (fst (Start H d t))) = (ip, None)
    end.
Proof.
  assert (Hd : forall a, disk_event a -> lookup_answer a = None).
  { intros [T c r]. unfold disk_event. simpl.
    destruct c; intros []; reflexivity. }
  assert (Hl : forall a, launch_event a -> lookup_answer a = None).
  { intros [T c r]. unfold launch_event. simpl.
    destruct c; intros []; reflexivity. }
  start_cases H d t.
  - exists ld. cbn [fst snd ret]. split; [reflexivity|].
    rewrite (last_lookup_none Fd Hd). split; [reflexivity | discriminate].
  - clear Er Fr lr. unfold Start_resolve, bind.
    destruct (@RetryAfter_last_lookup H mac (2 * Second) 30%nat
                (set_SSHKeyPath key d) ((t ++ ld) ++ ll) ltac:(lia))
      as (lr & r & ip & err & E & L & R).
    rewrite E. exists (ld ++ ll ++ lr).
    rewrite !last_lookup_app, L.
    destruct r as [e|]; cbn [fst snd ret]; rewrite <- !app_assoc;
      (split; [reflexivity|]); (split; [reflexivity|]);
      (split; [|reflexivity]).
    + split; [discriminate|]. intros Herr. apply R in Herr. discriminate.
    + split; [intros _; apply R; reflexivity | reflexivity].
  - cbn [fst snd ret]. exists (ld ++ ll). rewrite <- app_assoc.
    split; [reflexivity|].
    rewrite last_lookup_app, (last_lookup_none Fl Hl), (last_lookup_none Fd Hd).
    split; [reflexivity | discriminate].
Qed.

(** ** Create and extractKernel *)

Lemma extract_files_steps P d isoPath files j :
  match fst (extract_files P d isoPath files j) with
  | None =>
      snd (extract_files P d isoPath files j)
      = j ++ map (extraction P d isoPath None) files
  | Some e =>
      exists k f,
        nth_error files k = Some f /\
        snd (extract_files P d isoPath files j)
        = j ++ map (extraction P d isoPath None) (firstn k files)
            ++ [extraction P d isoPath (Some e) f]
  end.
Proof.
  revert j. induction files as [|[pathInIso destPath] rest IH]; intros j.
  - simpl. rewrite app_nil_r. reflexivity.
  - cbn [extract_files]. unfold xbind, prepare, xret.
    destruct (prep_answer P j (ExtractFile _ _ _)) as [e|] eqn:Ea;
      cbn [fst snd].
    + exists O, (pathInIso, destPath). split; reflexivity.
    + specialize (IH (j ++ [Prep (ExtractFile isoPath pathInIso
                                    (p_ResolveStorePath P (Base d) destPath))
                                 None])).
      destruct (fst (extract_files P d isoPath rest _)) as [e|].
      * destruct IH as (k & f & Hk & E). exists (Datatypes.S k), f.
        split; [exact Hk|]. rewrite E, <- !app_assoc. reflexivity.
      * rewrite IH, <- app_assoc. reflexivity.
Qed.

(** X13: [extractKernel] extracts /boot/bzimage, /boot/initrd and
    /isolinux/isolinux.cfg of the ISO, in this order, to bzimage, initrd
    and isolinux.cfg of the machine directory.  It stops at the first
    extraction that fails and returns its error; it succeeds exactly when
    all three were made and succeeded. *)
Theorem extractKernel_stops_at_first_failure (P : Provisioner) (d : Driver)
        (isoPath : string) (j : journal) :
  match fst (extractKernel P d isoPath j) with
  | None =>
      snd (extractKernel P d isoPath j)
      = j ++ [ Prep (ExtractFile isoPath "/boot/bzimage"
                       (p_ResolveStorePath P (Base d) "bzimage")) None;
               Prep (ExtractFile isoPath "/boot/initrd"
                       (p_ResolveStorePath P (Base d) "initrd")) None;
               Prep (ExtractFile isoPath "/isolinux/isolinux.cfg"
                       (p_ResolveStorePath P (Base d) "isolinux.cfg")) None ]
  | Some e =>
      exists k f,
        (k < 3)%nat /\ nth_error kernel_files k = Some f /\
        snd (extractKernel P d isoPath j)
        = j ++ map (extraction P d isoPath None) (firstn k kernel_files)
            ++ [extraction P d isoPath (Some e) f]
  end.
Proof.
  unfold extractKernel.
  pose proof (extract_files_steps P d isoPath kernel_files j) as Hs.
  destruct (fst (extract_files P d isoPath kernel_files j)) as [e|].
  - destruct Hs as (k & f & Hk & E). exists k, f.
    split; [|split; assumption].
    change 3%nat with (length kernel_files).
    apply nth_error_Some. rewrite Hk. discriminate.
  - exact Hs.
Qed.

Lemma ran_app j1 j2 : ran (j1 ++ j2) = ran j1 ++ ran j2.
Proof.
  induction j1 as [|[T c r|e] j1 IH]; simpl; [reflexivity | exact IH|].
  rewrite IH. reflexivity.
Qed.

Lemma ran_map_Ran t : ran (map Ran t) = t.
Proof. induction t as [|e t IH]; simpl; [|rewrite IH]; reflexivity. Qed.

Lemma ran_extractions P d isoPath r files :
  ran (map (extraction P d isoPath r) files) = [].
Proof. induction files as [|f files IH]; simpl; [reflexivity | exact IH]. Qed.

Lemma extractions_ok P d isoPath files :
  Forall (fun s => prep_error s = None)
         (map (extraction P d isoPath None) files).
Proof. apply Forall_map, Forall_forall. intros f _. reflexivity. Qed.

Lemma Start_does_something H d t : snd (Start H d t) <> t.
Proof.
  assert (Hne : forall l, l <> [] -> t ++ l <> t).
  { intros l Hl E. apply Hl. apply (app_inv_head t). rewrite app_nil_r.
    exact E. }
  start_cases H d t.
  - cbn [snd ret]. apply Hne, Nd.
  - rewrite Er, <- !app_assoc. apply Hne. destruct ld; [congruence|discriminate].
  - cbn [snd ret]. rewrite <- app_assoc. apply Hne.
    destruct ld; [congruence|discriminate].
Qed.

(** The two ways through [Create]: a preparation step fails, or all of
    them succeed and [Start] runs.  The driver they go on with is the one
    that asking for the key path left. *)
Lemma Create_anatomy P d j :
  let d1 := snd (p_GetSSHKeyPath P d) in
  (exists l0 s e,
      Create P d j = ((Some e, d1), j ++ l0 ++ [s]) /\
      Forall (fun s => prep_error s = None) l0 /\
      prep_error s = Some e /\ ran (l0 ++ [s]) = []) \/
  (exists t,
      Start (host_at P (j ++ prepared P d)) d1 [] = (fst (Create P d j), t) /\
      t <> [] /\
      snd (Create P d j) = j ++ prepared P d ++ map Ran t).
Proof.
  intros d1.
  assert (Hk : exists path, d1 = set_SSHKeyPath path d).
  { destruct (with_key_path_frame (host_at P []) d) as (E & _).
    eexists. exact E. }
  subst d1. unfold Create, prepared.
  destruct (p_GetSSHKeyPath P d) as [key d1]. cbn [fst snd] in *.
  destruct Hk as (path & ->).
  unfold xbind, prepare, xret.
  cbn [set_SSHKeyPath Base StorePath MachineName Boot2DockerURL].
  set (isoPath := p_ResolveStorePath P (Base d) isoFilename).
  change (p_ResolveStorePath P _ isoFilename) with isoPath.
  destruct (prep_answer P j (ssh_GenerateSSHKey _)) as [e|] eqn:Ek.
  { left. eexists [], _, e. split; [reflexivity|]. repeat split. constructor. }
  destruct (prep_answer P _ (CopyIsoToMachineDir _ _ _)) as [e|] eqn:Ec.
  { left. eexists [_], _, e. rewrite <- app_assoc.
    split; [reflexivity|]. repeat split. repeat constructor. }
  set (j2 := (j ++ _) ++ _).
  pose proof (extract_files_steps P (set_SSHKeyPath path d) isoPath
                kernel_files j2) as Hx.
  change (extraction P (set_SSHKeyPath path d)) with (extraction P d) in Hx.
  unfold extractKernel.
  destruct (extract_files P (set_SSHKeyPath path d) isoPath kernel_files j2)
    as [[e|] j3]; cbn [fst snd] in Hx.
  - left. destruct Hx as (k & f & Hk & E). subst j3 j2.
    eexists (_ :: _ :: map (extraction P d isoPath None)
                           (firstn k kernel_files)), _, e.
    rewrite <- !app_assoc. cbn [app]. split; [reflexivity|].
    split; [|split; [reflexivity|]].
    + repeat constructor. apply extractions_ok.
    + cbn [app ran]. rewrite ran_app, ran_extractions. reflexivity.
  - right. subst j3. unfold run_Start.
    assert (Ej : j2 ++ map (extraction P d isoPath None) kernel_files
                 = j ++ [ Prep (ssh_GenerateSSHKey key) None;
                          Prep (CopyIsoToMachineDir (StorePath (Base d))
                                  (Boot2DockerURL d) (MachineName (Base d)))
                               None ]
                     ++ map (extraction P d isoPath None) kernel_files).
    { subst j2. rewrite <- !app_assoc. reflexivity. }
    rewrite Ej.
    match goal with
    | |- context [Start ?h ?x []] =>
        pose proof (@Start_does_something h x []) as Hne;
        destruct (Start h x []) as [r t]
    end.
    exists t. cbn [fst snd] in *. rewrite <- !app_assoc.
    repeat split. exact Hne.
Qed.

(** X14: [Create] asks for the key path, generates the SSH key, copies
    the ISO and extracts the three boot files, in this order, and only
    when all of that succeeded does it call [Start], whose result it
    returns.  When a preparation step fails, that step is the last thing
    [Create] does: it returns the error of the step, no call of [Start]
    is made, and the driver is the one that asking for the key path
    left. *)
Theorem Create_prepares_then_starts (P : Provisioner) (d : Driver)
        (j : journal) :
  exists l,
    snd (Create P d j) = j ++ l /\
    (ran l = [] ->
     exists l0 s e,
       l = l0 ++ [s] /\ Forall (fun s => prep_error s = None) l0 /\
       prep_error s = Some e /\
       fst (Create P d j) = (Some e, snd (p_GetSSHKeyPath P d))) /\
    (ran l <> [] ->
     l = prepared P d ++ map Ran (ran l) /\
     Start (host_at P (j ++ prepared P d)) (snd (p_GetSSHKeyPath P d)) []
     = (fst (Create P d j), ran l)).
Proof.
  assert (Hp : ran (prepared P d) = []) by reflexivity.
  destruct (Create_anatomy P d j)
    as [(l0 & s & e & E & F & Se & R)|(t & E & Hne & Ej)].
  - exists (l0 ++ [s]). rewrite E. cbn [fst snd]. split; [reflexivity|].
    split; [|intros Hr; contradiction].
    intros _. exists l0, s, e. auto.
  - exists (prepared P d ++ map Ran t). split; [exact Ej|].
    rewrite ran_app, Hp, ran_map_Ran. cbn [app].
    split; [intros Ht; contradiction|]. intros _. split; [reflexivity | exact E].
Qed.

(** X15: whenever [Create] gets to start hyperkit, the kernel and the
    initrd of the configuration are the very files that [Create]
    extracted, successfully, from the ISO of the configuration. *)
Theorem Create_boots_what_it_extracted (P : Provisioner) (d : Driver)
        (j : journal) :
  exists l,
    snd (Create P d j) = j ++ l /\
    Forall (launches_with (fun h _ =>
              Exists (extracted (ISOImage h) "/boot/bzimage" (Kernel h)) l /\
              Exists (extracted (ISOImage h) "/boot/initrd" (Initrd h)) l))
           (ran l).
Proof.
  destruct (Create_anatomy P d j) as [(l0 & s & e & E & F & Se & R)|(t & E & Hne & Ej)].
  - exists (l0 ++ [s]). rewrite E, R. cbn [fst snd]. split; [reflexivity|].
    constructor.
  - exists (prepared P d ++ map Ran t). split; [exact Ej|].
    rewrite ran_app, ran_map_Ran. change (ran (prepared P d)) with (@nil event).
    cbn [app].
    destruct (Start_launches (host_at P (j ++ prepared P d))
                (snd (p_GetSSHKeyPath P d)) [])
      as (l & El & Fl).
    rewrite E in El. cbn [snd app] in El. subst l.
    assert (HR : forall file,
               ResolveStorePath (host_at P (j ++ prepared P d))
                 (Base (snd (p_GetSSHKeyPath P d))) file
               = p_ResolveStorePath P (Base d) file).
    { destruct (with_key_path_frame (host_at P []) d) as (_ & HR & _).
      exact HR. }
    revert Fl. apply Forall_impl. intros a. apply launches_with_impl.
    intros h c (_ & Hk & Hi & _ & Hiso & _).
    rewrite Hk, Hi, Hiso, !HR.
    split; apply Exists_app; left; unfold prepared, kernel_files;
      cbn [app map]; unfold extraction; cbn [fst snd].
    + do 2 apply Exists_cons_tl. apply Exists_cons_hd. repeat split.
    + do 3 apply Exists_cons_tl. apply Exists_cons_hd. repeat split.
Qed.

(** X16: [Create], whether it succeeds or fails, changes no field of the
    driver but the address and the key path, and the key path it leaves is
    the one it generated the SSH key at. *)
Theorem Create_changes_only_address_and_key_path
        (P : Provisioner) (d : Driver) (j : journal) :
  let d' := snd (fst (Create P d j)) in
  d' = set_SSHKeyPath (SSHKeyPath (Base d'))
         (set_IPAddress (IPAddress (Base d')) d) /\
  SSHKeyPath (Base d') = fst (p_GetSSHKeyPath P d).
Proof.
  intros d'. subst d'.
  assert (Hkey : SSHKeyPath (Base (snd (p_GetSSHKeyPath P d)))
                 = fst (p_GetSSHKeyPath P d) /\
                 only_address_and_key_differ d (snd (p_GetSSHKeyPath P d))).
  { unfold p_GetSSHKeyPath.
    destruct (with_key_path_cases (host_at P []) d) as [[_ E]|[_ E]];
      rewrite E; cbn [fst snd].
    - split; [reflexivity | apply frame_refl].
    - split; [reflexivity|]. destruct d as [[] ]. reflexivity. }
  destruct Hkey as [Hkey Hframe].
  destruct (Create_anatomy P d j)
    as [(l0 & s & e & E & _)|(t & E & _)].
  - rewrite E. cbn [fst snd]. split; [exact Hframe | exact Hkey].
  - pose proof (Start_frame (host_at P (j ++ prepared P d))
                  (snd (p_GetSSHKeyPath P d)) []) as Hf.
    pose proof (Start_driver (host_at P (j ++ prepared P d))
                  (snd (p_GetSSHKeyPath P d)) []) as Hd.
    cbv zeta in Hd. rewrite Start_disk_driver in Hd.
    rewrite E in Hf, Hd. cbn [fst snd] in Hf, Hd.
    split; [exact (frame_trans Hframe Hf)|].
    rewrite Hd. cbn [set_IPAddress Base SSHKeyPath].
    assert (Hw : SSHKeyPath
                   (Base (with_key_path (host_at P (j ++ prepared P d))
                            (snd (p_GetSSHKeyPath P d))))
                 = SSHKeyPath (Base (snd (p_GetSSHKeyPath P d)))).
    { clear. unfold with_key_path, p_GetSSHKeyPath.
      destruct (with_key_path_cases (host_at P []) d) as [[Hn E2]|[_ E2]];
        rewrite E2; cbn [snd].
      - destruct (with_key_path_cases (host_at P (j ++ prepared P d)) d)
          as [[_ E1]|[E0 _]]; [rewrite E1; reflexivity | contradiction].
      - match goal with
        | |- context [GetSSHKeyPath ?h ?x] =>
            destruct (with_key_path_cases h x) as [[_ E1]|[_ E1]];
              rewrite E1; reflexivity
        end. }
    destruct (os_IsNotExist _); [rewrite Hw|]; exact Hkey.
Qed.

Example Create_on_fake_provisioner :
  let P := fake_provisioner None None (fun _ => None)
             None alive disk_absent (lease_at 2) in
  fst (Create P minikube [])
  = (None,
     set_SSHKeyPath "/Users/dev/.minikube/machines/minikube/id_rsa"
       (set_IPAddress "192.168.64.2" minikube)) /\
  count is_launch (ran (snd (Create P minikube []))) = 1%nat /\
  length (filter is_prep (snd (Create P minikube []))) = 5%nat.
Proof. repeat split. Qed.

Example Create_fails_at_initrd :
  let P := fake_provisioner None None
             (fun p => if String.eqb p "/boot/initrd"
                       then Some (errorString "no such file in ISO")
                       else None)
             None alive disk_absent (lease_at 1) in
  fst (Create P minikube [])
  = (Some (errorString "no such file in ISO"),
     set_SSHKeyPath "/Users/dev/.minikube/machines/minikube/id_rsa"
       minikube) /\
  ran (snd (Create P minikube [])) = [] /\
  length (filter is_extract (snd (Create P minikube []))) = 2%nat.
Proof. repeat split. Qed.

(** ** Kill and Stop *)

(** X17: [Kill] and [Stop] differ in the signal only.  From the same
    history they read the same pid and look up the same process; either
    both return the error of the lookup, having sent nothing, or [Stop]
    sends SIGTERM and [Kill] sends SIGKILL to the same process, and each
    returns what its signal call answered. *)
Theorem Kill_differs_from_Stop_in_signal (H : Host) (d : Driver)
        (t : history) :
  exists l0,
    count is_signal l0 = 0%nat /\
    ((exists e,
         Stop H d t = (Some e, t ++ l0) /\ Kill H d t = (Some e, t ++ l0)) \/
     (exists p r1 r2,
         Stop H d t = (r1, t ++ l0 ++ [Ev (Process_Signal p SIGTERM) r1]) /\
         Kill H d t = (r2, t ++ l0 ++ [Ev (Process_Signal p SIGKILL) r2]))).
Proof.
  destruct (getPid_emits H d t) as (l0 & E0 & F0).
  assert (C0 : count is_signal l0 = 0%nat).
  { assert (Hq : count is_signal (snd (getPid H d t)) = count is_signal t).
    { apply getPid_quiet. intros T c r. destruct c; simpl; auto; discriminate. }
    rewrite E0, count_app in Hq. lia. }
  unfold Stop, Kill, sendSignal, bind, perform, ret.
  destruct (getPid H d t) as [pid t1]. simpl in E0. subst t1.
  destruct (answer H (t ++ l0) (os_FindProcess pid)) as [p|e] eqn:Ef.
  - exists (l0 ++ [Ev (os_FindProcess pid) (inl p)]).
    split; [rewrite count_app, C0; reflexivity|].
    right. eexists p, _, _. rewrite <- !app_assoc.
    split; reflexivity.
  - exists (l0 ++ [Ev (os_FindProcess pid) (inr e)]).
    split; [rewrite count_app, C0; reflexivity|].
    left. exists e. rewrite <- !app_assoc. split; reflexivity.
Qed.
